(** * tender_ai_tagging_builder: the rule-driven extraction pipeline

    A shallow embedding of [tender_ai_tagging_builder.py]: text cleaning,
    first-match and all-match page scans, flag folding, value rendering,
    the per-directive extraction loop, header-field extraction with
    defaults, the BID_INFO upsert and the amendment tracker.

    Python strings are modelled as [string] (code points below 256), Python
    dicts as insertion-ordered association lists, exceptions as the [Raise]
    branch of [result], the BID_INFO frame as its rows of two text cells
    under integer row labels.  What the program takes from the Python runtime (the
    [re] module and the part of [str.format] that renders a found value under
    a conversion or format specification) is the interface [PyLib]; the
    theorems hold for every implementation of it, and [Cpy.lib] is an
    executable implementation used for the concrete runs. *)

From Stdlib Require Import ZArith NArith Arith List String Ascii Bool Lia.
From Stdlib Require Import DecimalString DecimalNat.
Import ListNotations.

Local Open Scope string_scope.
Local Open Scope list_scope.
Local Open Scope nat_scope.

Set Implicit Arguments.

(** ** Exceptions *)

Inductive exn : Type :=
| TypeError
| IndexError
| KeyError
| ValueError
| ReError.

Inductive result (A : Type) : Type :=
| Ok (a : A)
| Raise (e : exn).

Arguments Ok {A} a.
Arguments Raise {A} e.

Definition bind {A B : Type} (c : result A) (k : A -> result B) : result B :=
  match c with
  | Ok a => k a
  | Raise e => Raise e
  end.

Declare Scope py_scope.
Delimit Scope py_scope with py.
Notation "x <- c ;; k" := (bind c (fun x => k))
  (at level 61, c at next level, right associativity) : py_scope.
Local Open Scope py_scope.

(** ** Strings *)

(** [str.isspace] on code points below 256; the same set is what [\s]
    matches in a [str] pattern. *)
Definition is_space (c : ascii) : bool :=
  existsb (N.eqb (N_of_ascii c)) [9; 10; 11; 12; 13; 28; 29; 30; 31; 32; 133; 160]%N.

(** [re.sub(r"\s+", " ", s)]: every maximal run of whitespace becomes one
    space.  [in_run] says that the previous character was whitespace. *)
Fixpoint collapse_ws (in_run : bool) (s : list ascii) : list ascii :=
  match s with
  | [] => []
  | c :: t =>
      if is_space c
      then (if in_run then collapse_ws true t else " "%char :: collapse_ws true t)
      else c :: collapse_ws false t
  end.

Fixpoint lstrip (s : list ascii) : list ascii :=
  match s with
  | [] => []
  | c :: t => if is_space c then lstrip t else s
  end.

(** [str.strip()] *)
Definition strip (s : list ascii) : list ascii :=
  rev (lstrip (rev (lstrip s))).

(** [clean_text]: [None] gives the empty string; a string has its
    whitespace runs collapsed and its ends trimmed. *)
Definition clean_text (s : option string) : string :=
  match s with
  | None => ""
  | Some s => string_of_list_ascii (strip (collapse_ws false (list_ascii_of_string s)))
  end.

(** [str(i)] for a non-negative integer. *)
Definition str_of_nat (i : nat) : string := NilZero.string_of_uint (Nat.to_uint i).

(** ** Dicts: insertion-ordered association lists *)

Section Dict.
Variable V : Type.

Definition dict : Type := list (string * V).

Fixpoint dict_get (d : dict) (k : string) : option V :=
  match d with
  | [] => None
  | (k', v) :: t => if String.eqb k' k then Some v else dict_get t k
  end.

Definition dict_mem (d : dict) (k : string) : bool :=
  existsb (fun kv => String.eqb (fst kv) k) d.

(** [d[k] = v]: the value of an existing key is replaced in place, a new
    key goes to the end. *)
Fixpoint dict_set (d : dict) (k : string) (v : V) : dict :=
  match d with
  | [] => [(k, v)]
  | (k', v') :: t => if String.eqb k' k then (k', v) :: t else (k', v') :: dict_set t k v
  end.

(** [d.setdefault(k, v)] *)
Definition dict_setdefault (d : dict) (k : string) (v : V) : dict :=
  if dict_mem d k then d else d ++ [(k, v)].

Definition keys (d : dict) : list string := map fst d.
End Dict.

(** ** Match objects and the runtime interface *)

(** An [re.Match]: the text of the whole match, one entry per capturing
    group of the pattern ([None] for a group that did not participate), and
    the pattern's [groupindex] (name to group number, from 1). *)
Record Match : Type := mkMatch {
  group0 : string;
  groups : list (option string);
  groupindex : list (string * nat)
}.

(** [m.group(i)] *)
Definition group (m : Match) (i : nat) : result (option string) :=
  match i with
  | 0 => Ok (Some (group0 m))
  | S j =>
      match nth_error (groups m) j with
      | Some g => Ok g
      | None => Raise IndexError
      end
  end.

(** [m.groupdict()] *)
Definition groupdict (m : Match) : dict (option string) :=
  map (fun ni => (fst ni, nth (snd ni - 1) (groups m) None)) (groupindex m).

(** A Python object found under a name of the [re] module: an integer or
    flag (it supports [|] with an [int]), or anything else (a function, a
    class, a module). *)
Inductive pyobj : Type :=
| PyInt (z : Z)
| PyOther.

Class PyLib : Type := {
  (** a compiled pattern, [re.Pattern] *)
  pattern_obj : Type;
  (** [getattr(re, name)], [None] when the module has no such attribute *)
  re_getattr : string -> option pyobj;
  (** [re.compile(pattern, flags)] *)
  re_compile : string -> Z -> result pattern_obj;
  (** [rx.search(text)] *)
  rx_search : pattern_obj -> string -> option Match;
  (** [rx.finditer(text)] *)
  rx_finditer : pattern_obj -> string -> list Match;
  (** [str.format] on a found string value under a non-empty attribute,
      index, conversion or format-specification suffix *)
  format_suffix : string -> string -> result string;
  (** the match of [search] is the first one that [finditer] yields *)
  rx_search_first : forall rx text, rx_search rx text = hd_error (rx_finditer rx text)
}.

Definition IGNORECASE : Z := 2.
Definition MULTILINE : Z := 8.
Definition DOTALL : Z := 16.

(** A page: (page number, text). *)
Definition page : Type := (Z * string)%type.

(** ** str.format with keyword arguments only *)

(** The text of a replacement field: everything up to the brace that
    closes it, nested braces counted.  [None]: the string ends first. *)
Fixpoint take_field (depth : nat) (s : list ascii) : option (list ascii * list ascii) :=
  match s with
  | [] => None
  | c :: t =>
      if Ascii.eqb c "}"
      then match depth with
           | 0 => Some ([], t)
           | S d => option_map (fun r => (c :: fst r, snd r)) (take_field d t)
           end
      else if Ascii.eqb c "{"
      then option_map (fun r => (c :: fst r, snd r)) (take_field (S depth) t)
      else option_map (fun r => (c :: fst r, snd r)) (take_field depth t)
  end.

(** The argument name of a field: its text up to the first of [. [ ! :]. *)
Fixpoint split_arg_name (f : list ascii) : list ascii * list ascii :=
  match f with
  | [] => ([], [])
  | c :: t =>
      if existsb (Ascii.eqb c) ["."; "["; "!"; ":"]%char
      then ([], f)
      else let r := split_arg_name t in (c :: fst r, snd r)
  end.

Definition is_digit (c : ascii) : bool :=
  (N.leb 48 (N_of_ascii c) && N.leb (N_of_ascii c) 57)%N.

Section Format.
Context {P : PyLib}.

(** One replacement field, resolved against no positional arguments and
    the keyword arguments [kw]: an empty or numeric argument name asks
    for a positional argument, of which there is none. *)
Definition format_field (kw : dict string) (f : list ascii) : result string :=
  let (name, suffix) := split_arg_name f in
  if forallb is_digit name
  then Raise IndexError
  else match dict_get kw (string_of_list_ascii name) with
       | None => Raise KeyError
       | Some v =>
           match suffix with
           | [] => Ok v
           | _ => format_suffix v (string_of_list_ascii suffix)
           end
       end.

(** [template.format] with the keyword arguments [kw].  [fuel] bounds the number of characters
    read; the length of the template is enough. *)
Fixpoint format_from (fuel : nat) (kw : dict string) (s : list ascii) : result string :=
  match fuel with
  | 0 => Ok ""
  | S fuel' =>
      match s with
      | [] => Ok ""
      | c :: t =>
          if Ascii.eqb c "{"
          then match t with
               | c' :: t' =>
                   if Ascii.eqb c' "{"
                   then rest <- format_from fuel' kw t' ;; Ok (String "{" rest)
                   else match take_field 0 t with
                        | None => Raise ValueError
                        | Some (f, r) =>
                            v <- format_field kw f ;;
                            rest <- format_from fuel' kw r ;;
                            Ok (v ++ rest)%string
                        end
               | [] => Raise ValueError
               end
          else if Ascii.eqb c "}"
          then match t with
               | c' :: t' =>
                   if Ascii.eqb c' "}"
                   then rest <- format_from fuel' kw t' ;; Ok (String "}" rest)
                   else Raise ValueError
               | [] => Raise ValueError
               end
          else rest <- format_from fuel' kw t ;; Ok (String c rest)
      end
  end.

Definition str_format (template : string) (kw : dict string) : result string :=
  let s := list_ascii_of_string template in
  format_from (S (List.length s)) kw s.

(** A call of [f] with the unpacked dicts [kw1] and [kw2]: a keyword given twice is a [TypeError],
    raised before [f] runs. *)
Fixpoint call_kwargs (kw1 kw2 : dict string) : result (dict string) :=
  match kw2 with
  | [] => Ok kw1
  | (k, v) :: t =>
      if dict_mem kw1 k then Raise TypeError else call_kwargs (kw1 ++ [(k, v)]) t
  end.
End Format.

(** ** Configuration and output records *)

(** [d.get(key, default)] on an optional entry. *)
Definition get {A : Type} (entry : option A) (default : A) : A :=
  match entry with
  | Some a => a
  | None => default
  end.

(** One item of [extractors]: each key may be absent. *)
Record extractor : Type := mkExtractor {
  ext_section : option string;
  ext_clause : option string;
  ext_parameter : option string;
  ext_unit : option string;
  ext_notes : option string;
  ext_mode : option string;
  ext_pattern : option string;
  ext_value_expr : option string;
  ext_flags : option (list string)
}.

Record rules : Type := mkRules {
  extractors : list extractor;
  bid_info_map : dict string;
  defaults : dict string
}.

(** A row of AI_Tagging_Master.  [Section_] and [Parameter_] are the
    fields Section and Parameter of the source. *)
Record TagRow : Type := mkTagRow {
  Section_ : string;
  ClauseRef : string;
  Parameter_ : string;
  Value : string;
  Unit : string;
  Notes : string;
  SourcePage : Z
}.

(** A row of AmendmentTracker; [AmendmentNotes] is its Notes column, and
    [Date] is [None] when the group of the date match did not participate. *)
Record AmendmentRecord : Type := mkAmendment {
  AmendmentType : string;
  FileName : string;
  Date : option string;
  AmendmentNotes : string;
  Pages : nat
}.

(** A PDF as the reader sees it: the base name of its path and, in order,
    what [extract_text] gave for each page the reader yielded before any
    failure ([None]: the call raised or returned nothing). *)
Record pdf : Type := mkPdf {
  pdf_name : string;
  pdf_pages : list (option string)
}.

Fixpoint enumerate_from {A : Type} (i : nat) (l : list A) : list (nat * A) :=
  match l with
  | [] => []
  | a :: t => (i, a) :: enumerate_from (S i) t
  end.

(** [read_pdf_text_with_pages]: pages numbered from 1, the text of a page
    that gave nothing is empty. *)
Definition read_pdf_text_with_pages (f : pdf) : list page :=
  map (fun it => (Z.of_nat (fst it) + 1, get (snd it) ""))%Z (enumerate_from 0 (pdf_pages f)).

(** ** Scans, flags and rendering *)

Section Extraction.
Context {P : PyLib}.

(** The loop of [find_first] over the pages. *)
Fixpoint first_hit (rx : pattern_obj) (pages : list page) : option (Z * Match) :=
  match pages with
  | [] => None
  | (pn, text) :: rest =>
      match rx_search rx text with
      | Some m => Some (pn, m)
      | None => first_hit rx rest
      end
  end.

Definition find_first (pattern : string) (pages : list page) (flags : Z)
  : result (option (Z * Match)) :=
  rx <- re_compile pattern flags ;;
  Ok (first_hit rx pages).

(** The loops of [find_all]: [hits] grows by one pair per match. *)
Fixpoint all_hits (hits : list (Z * Match)) (rx : pattern_obj) (pages : list page)
  : list (Z * Match) :=
  match pages with
  | [] => hits
  | (pn, text) :: rest =>
      all_hits (fold_left (fun h m => h ++ [(pn, m)]) (rx_finditer rx text) hits) rx rest
  end.

Definition find_all (pattern : string) (pages : list page) (flags : Z)
  : result (list (Z * Match)) :=
  rx <- re_compile pattern flags ;;
  Ok (all_hits [] rx pages).

(** [fl |= getattr(re, f, 0)] for each name of the list. *)
Fixpoint or_flags (fl : Z) (flags_list : list string) : result Z :=
  match flags_list with
  | [] => Ok fl
  | f :: rest =>
      match get (re_getattr f) (PyInt 0) with
      | PyInt z => or_flags (Z.lor fl z) rest
      | PyOther => Raise TypeError
      end
  end.

Definition compile_flags (flags_list : list string) : result Z := or_flags 0 flags_list.

(** The positional and named entries of [fmt_dict], cleaned. *)
Definition fmt_dict_of (m : Match) : dict string :=
  let positional :=
    fold_left (fun d ig => dict_set d (str_of_nat (fst ig)) (clean_text (snd ig)))
              (enumerate_from 0 (groups m)) [] in
  fold_left (fun d kv => dict_set d (fst kv) (clean_text (snd kv))) (groupdict m) positional.

(** The dict comprehension that re-keys [fmt_dict] by [str(k)]; the keys are
    strings already. *)
Definition rekeyed (d : dict string) : dict string :=
  fold_left (fun d' kv => dict_set d' (fst kv) (snd kv)) d [].

(** The handler of [render_value]: group 1 when the match has groups, the
    whole match otherwise. *)
Definition render_fallback (m : Match) : result string :=
  g <- match groups m with
       | [] => group m 0
       | _ :: _ => group m 1
       end ;;
  Ok (clean_text g).

Definition render_value (value_expr : string) (m : Match) : result string :=
  let fmt_dict := fmt_dict_of m in
  match (kw1 <- call_kwargs [] fmt_dict ;;
         kw <- call_kwargs kw1 (rekeyed fmt_dict) ;;
         str_format value_expr kw) with
  | Ok s => Ok s
  | Raise _ => render_fallback m
  end.

(** ** The extraction loop *)

Definition row_of (ext : extractor) (value : string) (pn : Z) : TagRow :=
  mkTagRow (get (ext_section ext) "General")
           (get (ext_clause ext) "")
           (get (ext_parameter ext) "")
           value
           (get (ext_unit ext) "")
           (get (ext_notes ext) "")
           pn.

(** The body of the "all" branch: one row appended per hit. *)
Fixpoint append_hits (results : list TagRow) (ext : extractor) (hits : list (Z * Match))
  : result (list TagRow) :=
  match hits with
  | [] => Ok results
  | (pn, m) :: rest =>
      value <- render_value (get (ext_value_expr ext) "{0}") m ;;
      append_hits (results ++ [row_of ext value pn]) ext rest
  end.

(** One turn of the loop of [run_extractors]. *)
Definition extract (results : list TagRow) (pages : list page) (ext : extractor)
  : result (list TagRow) :=
  let mode := get (ext_mode ext) "first" in
  let pattern := get (ext_pattern ext) "" in
  let value_expr := get (ext_value_expr ext) "{0}" in
  let flags_list := get (ext_flags ext) ["IGNORECASE"] in
  fl <- compile_flags flags_list ;;
  if String.eqb mode "all"
  then hits <- find_all pattern pages fl ;;
       append_hits results ext hits
  else r <- find_first pattern pages fl ;;
       match r with
       | Some (pn, m) =>
           value <- render_value value_expr m ;;
           Ok (results ++ [row_of ext value pn])
       | None => Ok results
       end.

Fixpoint run_from (results : list TagRow) (pages : list page) (exts : list extractor)
  : result (list TagRow) :=
  match exts with
  | [] => Ok results
  | ext :: rest =>
      results' <- extract results pages ext ;;
      run_from results' pages rest
  end.

Definition run_extractors (pages : list page) (exts : list extractor)
  : result (list TagRow) :=
  run_from [] pages exts.

(** ** Header fields and defaults *)

Definition header_flags : Z := Z.lor (Z.lor IGNORECASE DOTALL) MULTILINE.

(** The value stored for one header field: group 1 of the first match,
    cleaned, or the empty string. *)
Definition header_value (pages : list page) (pattern : string) : result string :=
  r <- find_first pattern pages header_flags ;;
  match r with
  | Some (_, m) => g <- group m 1 ;; Ok (clean_text g)
  | None => Ok ""
  end.

Fixpoint header_values (vals : dict string) (pages : list page) (items : dict string)
  : result (dict string) :=
  match items with
  | [] => Ok vals
  | (field, pattern) :: rest =>
      v <- header_value pages pattern ;;
      header_values (dict_set vals field v) pages rest
  end.

(** The loop over [defaults]: [setdefault] for each entry. *)
Definition apply_defaults (vals : dict string) (dflt : dict string) : dict string :=
  fold_left (fun d kv => dict_setdefault d (fst kv) (snd kv)) dflt vals.

Definition bid_info_values (pages : list page) (r : rules) : result (dict string) :=
  vals <- header_values [] pages (bid_info_map r) ;;
  Ok (apply_defaults vals (defaults r)).

End Extraction.

(** ** The BID_INFO frame *)

(** A frame with the columns Field and Value: its rows in order, each
    under its row label.  The labels are integers, in any order; the
    default labels are 0, 1, ... *)
Definition frame : Type := list (Z * (string * string)).

(** [df.index] *)
Definition row_labels (df : frame) : list Z := map fst df.

(** The two columns, row by row. *)
Definition field_rows (df : frame) : dict string := map snd df.

(** [(df["Field"] == k).any()] *)
Definition field_any (df : frame) (k : string) : bool :=
  existsb (fun r => String.eqb (fst (snd r)) k) df.

(** [df.loc[df["Field"] == k, "Value"] = v] *)
Definition loc_set_value (df : frame) (k v : string) : frame :=
  map (fun r => if String.eqb (fst (snd r)) k then (fst r, (fst (snd r), v)) else r) df.

(** The number of rows under a label. *)
Definition label_count (df : frame) (label : Z) : nat :=
  List.length (filter (Z.eqb label) (row_labels df)).

(** [df.loc[label] = row], the row given by its Field and its Value: under
    a label that the frame lacks the row is added behind the others; under
    a label that it has once the row replaces the one standing there.  A
    label that stands more than once is outside this model of frames:
    [None]. *)
Definition loc_set_row (df : frame) (label : Z) (row : string * string) : option frame :=
  match label_count df label with
  | 0 => Some (df ++ [(label, row)])
  | 1 => Some (map (fun r => if Z.eqb (fst r) label then (fst r, row) else r) df)
  | _ => None
  end.

(** [df.empty] *)
Definition frame_empty (df : frame) : bool :=
  match df with
  | [] => true
  | _ :: _ => false
  end.

Fixpoint upsert_items (df : frame) (items : dict string) : option frame :=
  match items with
  | [] => Some df
  | (k, v) :: rest =>
      match (if field_any df k
             then Some (loc_set_value df k v)
             else loc_set_row df (Z.of_nat (List.length df)) (k, v)) with
      | Some df' => upsert_items df' rest
      | None => None
      end
  end.

Definition upsert_bid_info (bid_info_df : frame) (mapping : dict string) : option frame :=
  let df := if frame_empty bid_info_df then [] else bid_info_df in
  upsert_items df mapping.

(** ** Amendments *)

Definition date_pattern : string := "(\d{1,2}[-/\.]\d{1,2}[-/\.]\d{2,4})".
Definition label_pattern : string := "(Corrigendum|Addendum|Amendment)".

Section Sheets.
Context {P : PyLib}.

(** The row built for one amendment file. *)
Definition amendment_row (f : pdf) : result AmendmentRecord :=
  let pages := read_pdf_text_with_pages f in
  let label := "Corrigendum/Addendum" in
  r <- find_first date_pattern pages IGNORECASE ;;
  date_found <- match r with
                | Some (_, m) => group m 1
                | None => Ok (Some "")
                end ;;
  r2 <- find_first label_pattern pages IGNORECASE ;;
  label <- match r2 with
           | Some (_, m2) => g <- group m2 1 ;; Ok (clean_text g)
           | None => Ok label
           end ;;
  Ok (mkAmendment label (pdf_name f) date_found "" (List.length pages)).

Fixpoint append_amendments_from (rows : list AmendmentRecord) (files : list pdf)
  : result (list AmendmentRecord) :=
  match files with
  | [] => Ok rows
  | f :: rest =>
      row <- amendment_row f ;;
      append_amendments_from (rows ++ [row]) rest
  end.

Definition append_amendments (amendment_files : list pdf) : result (list AmendmentRecord) :=
  append_amendments_from [] amendment_files.

(** The BID_INFO sheet of [main]: the pages of all main PDFs in file order,
    header values, defaults, then the upsert into an empty frame. *)
Definition bid_info_sheet (main_pdfs : list pdf) (r : rules) : result (option frame) :=
  let pages_simple := flat_map read_pdf_text_with_pages main_pdfs in
  vals <- bid_info_values pages_simple r ;;
  Ok (upsert_bid_info [] vals).

End Sheets.

(** ** Vocabulary of the statements *)

Section Vocabulary.
Context {P : PyLib}.

(** The matches of a compiled pattern over the pages, in discovery order:
    page by page, left to right within a page, each with its page number. *)
Definition hits_of (rx : pattern_obj) (pages : list page) : list (Z * Match) :=
  flat_map (fun p => map (pair (fst p)) (rx_finditer rx (snd p))) pages.

Definition total_matches (rx : pattern_obj) (pages : list page) : nat :=
  list_sum (map (fun p => List.length (rx_finditer rx (snd p))) pages).

(** The flag list and the pattern of a directive compile to [rx]. *)
Definition compiles (ext : extractor) (rx : pattern_obj) : Prop :=
  exists fl,
    compile_flags (get (ext_flags ext) ["IGNORECASE"]) = Ok fl /\
    re_compile (get (ext_pattern ext) "") fl = Ok rx.


(** The bits a name contributes when it is not bound to a non-integer. *)
Definition flag_bits (name : string) : Z :=
  match re_getattr name with
  | Some (PyInt z) => z
  | _ => 0%Z
  end.

End Vocabulary.

(** The number of rows whose Field is [k]. *)
Definition count_field (df : frame) (k : string) : nat :=
  List.length (filter (fun r => String.eqb (fst (snd r)) k) df).

(** Every row label is below the number of rows, as under the default
    labels 0, 1, ...: the label that the upsert gives a new row is then
    free. *)
Definition labels_below (df : frame) : bool :=
  forallb (fun label => (label <? Z.of_nat (List.length df))%Z) (row_labels df).

(** Rows under the default labels. *)
Definition range_frame (rows : dict string) : frame :=
  combine (map Z.of_nat (seq 0 (List.length rows))) rows.

(** What the loop of [upsert_bid_info] does to the two columns when every
    new row goes behind the others: a field that is there takes the value
    in its rows, one that is not gets a last row. *)
Definition set_values (rows : dict string) (k v : string) : dict string :=
  map (fun row => if String.eqb (fst row) k then (fst row, v) else row) rows.

Definition upsert_row (rows : dict string) (k v : string) : dict string :=
  if dict_mem rows k then set_values rows k v else rows ++ [(k, v)].

Fixpoint upsert_rows (rows : dict string) (items : dict string) : dict string :=
  match items with
  | [] => rows
  | (k, v) :: rest => upsert_rows (upsert_row rows k v) rest
  end.

Definition count_key (rows : dict string) (k : string) : nat :=
  List.length (filter (fun row => String.eqb (fst row) k) rows).

(** The rows under the labels of [df], continued by the labels that
    follow its number of rows. *)
Definition relabel (df : frame) (rows : dict string) : frame :=
  combine (row_labels df
           ++ map Z.of_nat (seq (List.length df) (List.length rows - List.length df)))
          rows.

(** [d1.update(d2)], the dict of [{**d1, **d2}]. *)
Definition dict_update (d1 d2 : dict string) : dict string :=
  fold_left (fun d kv => dict_set d (fst kv) (snd kv)) d2 d1.

(** ** An executable runtime *)

Fixpoint set_nth {A : Type} (l : list A) (i : nat) (a : A) : list A :=
  match l, i with
  | [], _ => []
  | _ :: t, 0 => a :: t
  | x :: t, S j => x :: set_nth t j a
  end.

(** [Cpy] implements [PyLib] for a fragment of Python's pattern syntax:
    literals, [.], the escapes for digits and whitespace, escaped
    punctuation, character sets with ranges and negation, capturing, named
    and non-capturing groups, alternation and the greedy quantifiers.  The
    matcher backtracks the way [re] does: alternatives left to right,
    quantifiers greedy, the leftmost match wins.  A pattern outside the
    fragment, or flags other than IGNORECASE, MULTILINE, DOTALL and
    UNICODE, are reported as [ReError]. *)
Module Cpy.

Inductive set_item : Type :=
| One (c : ascii)
| Range (lo hi : ascii)
| Digit
| NotDigit
| Space
| NotSpace.

Inductive regex : Type :=
| Chr (c : ascii)
| Any
| Cls (negated : bool) (items : list set_item)
| Eps
| Cat (r1 r2 : regex)
| Alt (r1 r2 : regex)
| Rep (lo : nat) (hi : option nat) (r : regex)
| Grp (idx : nat) (r : regex).

Record compiled : Type := mkCompiled {
  c_regex : regex;
  c_ngroups : nat;
  c_names : list (string * nat);
  c_flags : Z
}.

Definition code (c : ascii) : N := N_of_ascii c.

Definition lower (c : ascii) : ascii :=
  let n := code c in
  if ((65 <=? n) && (n <=? 90) || (192 <=? n) && (n <=? 222) && negb (n =? 215))%N
  then ascii_of_N (n + 32)
  else c.

Definition upper (c : ascii) : ascii :=
  let n := code c in
  if ((97 <=? n) && (n <=? 122) || (224 <=? n) && (n <=? 254) && negb (n =? 247))%N
  then ascii_of_N (n - 32)
  else c.

Definition ignorecase (fl : Z) : bool := Z.testbit fl 1.
Definition dotall (fl : Z) : bool := Z.testbit fl 4.

Definition chr_matches (fl : Z) (c x : ascii) : bool :=
  Ascii.eqb c x || (ignorecase fl && Ascii.eqb (lower c) (lower x)).

Definition item_has (it : set_item) (x : ascii) : bool :=
  match it with
  | One c => Ascii.eqb c x
  | Range lo hi => (code lo <=? code x)%N && (code x <=? code hi)%N
  | Digit => is_digit x
  | NotDigit => negb (is_digit x)
  | Space => is_space x
  | NotSpace => negb (is_space x)
  end.

Definition set_has (items : list set_item) (x : ascii) : bool :=
  existsb (fun it => item_has it x) items.

Definition cls_matches (fl : Z) (negated : bool) (items : list set_item) (x : ascii) : bool :=
  xorb negated
       (set_has items x
        || (ignorecase fl && (set_has items (lower x) || set_has items (upper x)))).

Definition any_matches (fl : Z) (x : ascii) : bool :=
  dotall fl || negb (code x =? 10)%N.

Definition captures : Type := list (option string).
Definition outcome : Type := option (list ascii * captures).

(** The text consumed between the input [s] and its suffix [s']. *)
Definition consumed (s s' : list ascii) : list ascii :=
  firstn (List.length s - List.length s') s.

(** The turns of a greedy repetition of [body] between [lo] and [hi]
    times: [n] turns are done, [last] is the input length at the previous
    turn.  One more turn is tried first, then the continuation [k].  A
    repetition that has its minimum stops after a turn that consumed
    nothing. *)
Fixpoint rep_loop (body : list ascii -> captures ->
                          (list ascii -> captures -> outcome) -> outcome)
                  (lo : nat) (hi : option nat)
                  (k : list ascii -> captures -> outcome)
                  (fuel n : nat) (last : option nat) (s : list ascii) (caps : captures)
                  {struct fuel} : outcome :=
  let stop := if lo <=? n then k s caps else None in
  match fuel with
  | 0 => stop
  | S fuel' =>
      if match hi with Some h => n <? h | None => true end
         && ((n <? lo)
             || match last with Some l => negb (l =? List.length s) | None => true end)
      then match body s caps
                      (fun s' caps' =>
                         rep_loop body lo hi k fuel' (S n) (Some (List.length s)) s' caps') with
           | Some x => Some x
           | None => stop
           end
      else stop
  end.

(** [run fl r s caps k]: match [r] at the head of [s], then continue with
    [k] on the rest; a failure of [k] makes the matcher try its next
    choice. *)
Fixpoint run (fl : Z) (r : regex) (s : list ascii) (caps : captures)
             (k : list ascii -> captures -> outcome) {struct r} : outcome :=
  match r with
  | Chr c =>
      match s with
      | x :: t => if chr_matches fl c x then k t caps else None
      | [] => None
      end
  | Any =>
      match s with
      | x :: t => if any_matches fl x then k t caps else None
      | [] => None
      end
  | Cls negated items =>
      match s with
      | x :: t => if cls_matches fl negated items x then k t caps else None
      | [] => None
      end
  | Eps => k s caps
  | Cat r1 r2 => run fl r1 s caps (fun s' caps' => run fl r2 s' caps' k)
  | Alt r1 r2 =>
      match run fl r1 s caps k with
      | Some x => Some x
      | None => run fl r2 s caps k
      end
  | Grp idx r1 =>
      run fl r1 s caps
          (fun s' caps' =>
             k s' (set_nth caps' (idx - 1) (Some (string_of_list_ascii (consumed s s')))))
  | Rep lo hi r1 =>
      rep_loop (run fl r1) lo hi k (S (lo + List.length s)) 0 None s caps
  end.

Definition mk_match (c : compiled) (matched : list ascii) (caps : captures) : Match :=
  mkMatch (string_of_list_ascii matched) caps (c_names c).

(** The leftmost match in [s]: (text before it, matched text, text after
    it, captures).  With [must_advance] an empty match at the head of [s]
    does not count. *)
Fixpoint scan (c : compiled) (must_advance : bool) (s : list ascii)
  : option (list ascii * list ascii * captures) :=
  match run (c_flags c) (c_regex c) s (repeat None (c_ngroups c))
            (fun s' caps' =>
               if must_advance && (List.length s' =? List.length s)
               then None
               else Some (s', caps')) with
  | Some (s', caps') => Some (consumed s s', s', caps')
  | None =>
      match s with
      | [] => None
      | _ :: t => scan c false t
      end
  end.

Definition search (c : compiled) (text : string) : option Match :=
  match scan c false (list_ascii_of_string text) with
  | Some (matched, _, caps) => Some (mk_match c matched caps)
  | None => None
  end.

(** The matches of [finditer], left to right; after an empty match the next
    one may not be empty at the same place. *)
Fixpoint iter (fuel : nat) (c : compiled) (must_advance : bool) (s : list ascii)
  : list Match :=
  match fuel with
  | 0 => []
  | S fuel' =>
      match scan c must_advance s with
      | Some (matched, rest, caps) =>
          mk_match c matched caps
            :: iter fuel' c (match matched with [] => true | _ :: _ => false end) rest
      | None => []
      end
  end.

Definition finditer (c : compiled) (text : string) : list Match :=
  let s := list_ascii_of_string text in
  iter (2 * List.length s + 2) c false s.

(** *** Reading a pattern *)

(** The parser's state: the number of the next capturing group and the
    named groups met so far. *)
Definition pstate : Type := (nat * list (string * nat))%type.

Definition is_alpha (c : ascii) : bool :=
  ((65 <=? code c) && (code c <=? 90) || (97 <=? code c) && (code c <=? 122))%N.

Fixpoint take_digits (acc : option nat) (s : list ascii) : option nat * list ascii :=
  match s with
  | c :: t =>
      if is_digit c
      then take_digits (Some (10 * get acc 0 + (N.to_nat (code c) - 48))) t
      else (acc, s)
  | [] => (acc, s)
  end.

(** A quantifier may not be followed by another one (the lazy and
    possessive forms are outside the fragment). *)
Definition quantified (r : regex) (s : list ascii) : option (regex * list ascii) :=
  match s with
  | c :: _ => if existsb (Ascii.eqb c) ["*"; "+"; "?"; "{"]%char then None else Some (r, s)
  | [] => Some (r, s)
  end.

Definition p_quant (a : regex) (s : list ascii) : option (regex * list ascii) :=
  match s with
  | c :: t =>
      if Ascii.eqb c "*" then quantified (Rep 0 None a) t
      else if Ascii.eqb c "+" then quantified (Rep 1 None a) t
      else if Ascii.eqb c "?" then quantified (Rep 0 (Some 1) a) t
      else if Ascii.eqb c "{" then
        let (lo, s1) := take_digits None t in
        match s1 with
        | c1 :: t1 =>
            if Ascii.eqb c1 "}"
            then match lo with
                 | Some m => quantified (Rep m (Some m) a) t1
                 | None => None
                 end
            else if Ascii.eqb c1 ","
            then let (hi, s2) := take_digits None t1 in
                 match s2 with
                 | c2 :: t2 =>
                     if Ascii.eqb c2 "}" && match hi with Some h => get lo 0 <=? h | None => true end
                     then quantified (Rep (get lo 0) hi a) t2
                     else None
                 | [] => None
                 end
            else None
        | [] => None
        end
      else Some (a, s)
  | [] => Some (a, s)
  end.

(** An escaped character inside a set. *)
Definition p_set_escape (c : ascii) : option set_item :=
  if Ascii.eqb c "d" then Some Digit
  else if Ascii.eqb c "D" then Some NotDigit
  else if Ascii.eqb c "s" then Some Space
  else if Ascii.eqb c "S" then Some NotSpace
  else if Ascii.eqb c "n" then Some (One (ascii_of_N 10))
  else if Ascii.eqb c "t" then Some (One (ascii_of_N 9))
  else if Ascii.eqb c "r" then Some (One (ascii_of_N 13))
  else if is_alpha c || is_digit c then None
  else Some (One c).

Definition p_escape (c : ascii) : option regex :=
  match p_set_escape c with
  | Some (One x) => Some (Chr x)
  | Some it => Some (Cls false [it])
  | None => None
  end.

Definition backslash : ascii := ascii_of_N 92.

(** The items of a set, up to its closing bracket.  A bracket in first
    place is an item. *)
Fixpoint p_items (fuel : nat) (first : bool) (s : list ascii)
  : option (list set_item * list ascii) :=
  match fuel with
  | 0 => None
  | S f =>
      match s with
      | [] => None
      | c :: t =>
          if Ascii.eqb c "]" && negb first then Some ([], t)
          else
            let low :=
              if Ascii.eqb c backslash
              then match t with
                   | e :: t' => option_map (fun it => (it, t')) (p_set_escape e)
                   | [] => None
                   end
              else Some (One c, t) in
            match low with
            | None => None
            | Some (it, s1) =>
                let single :=
                  option_map (fun r => (it :: fst r, snd r)) (p_items f false s1) in
                match s1 with
                | d :: e :: t2 =>
                    if Ascii.eqb d "-" && negb (Ascii.eqb e "]")
                    then match it with
                         | One lo =>
                             if Ascii.eqb e backslash || negb (code lo <=? code e)%N
                             then None
                             else option_map (fun r => (Range lo e :: fst r, snd r))
                                             (p_items f false t2)
                         | _ => None
                         end
                    else single
                | _ => single
                end
            end
      end
  end.

Definition p_set (s : list ascii) : option (regex * list ascii) :=
  let (negated, s1) :=
    match s with
    | c :: t => if Ascii.eqb c "^" then (true, t) else (false, s)
    | [] => (false, s)
    end in
  option_map (fun r => (Cls negated (fst r), snd r)) (p_items (S (List.length s1)) true s1).

(** The name of a named group, up to its closing angle bracket. *)
Fixpoint p_name (s : list ascii) : option (list ascii * list ascii) :=
  match s with
  | [] => None
  | c :: t =>
      if Ascii.eqb c ">" then Some ([], t)
      else if is_alpha c || is_digit c || Ascii.eqb c "_"
      then option_map (fun r => (c :: fst r, snd r)) (p_name t)
      else None
  end.

Definition starts_with (prefix : string) (s : list ascii) : option (list ascii) :=
  let p := list_ascii_of_string prefix in
  if String.eqb (string_of_list_ascii (firstn (List.length p) s)) prefix
  then Some (skipn (List.length p) s)
  else None.

Definition closes (r : option (regex * list ascii * pstate)) (wrap : regex -> regex)
  : option (regex * list ascii * pstate) :=
  match r with
  | Some (body, c :: rest, st) => if Ascii.eqb c ")" then Some (wrap body, rest, st) else None
  | _ => None
  end.

Fixpoint p_alt (fuel : nat) (s : list ascii) (st : pstate)
  : option (regex * list ascii * pstate) :=
  match fuel with
  | 0 => None
  | S f =>
      match p_seq f s st with
      | Some (r1, c :: s1, st1) =>
          if Ascii.eqb c "|"
          then match p_alt f s1 st1 with
               | Some (r2, s2, st2) => Some (Alt r1 r2, s2, st2)
               | None => None
               end
          else Some (r1, c :: s1, st1)
      | other => other
      end
  end
with p_seq (fuel : nat) (s : list ascii) (st : pstate)
  : option (regex * list ascii * pstate) :=
  match fuel with
  | 0 => None
  | S f =>
      match s with
      | [] => Some (Eps, [], st)
      | c :: _ =>
          if Ascii.eqb c "|" || Ascii.eqb c ")" then Some (Eps, s, st)
          else match p_atom f s st with
               | Some (a, s1, st1) =>
                   match p_quant a s1 with
                   | Some (q, s2) =>
                       match p_seq f s2 st1 with
                       | Some (r, s3, st3) => Some (Cat q r, s3, st3)
                       | None => None
                       end
                   | None => None
                   end
               | None => None
               end
      end
  end
with p_atom (fuel : nat) (s : list ascii) (st : pstate)
  : option (regex * list ascii * pstate) :=
  match fuel with
  | 0 => None
  | S f =>
      match s with
      | [] => None
      | c :: t =>
          if Ascii.eqb c "("
          then match starts_with "?:" t, starts_with "?P<" t with
               | Some t', _ => closes (p_alt f t' st) (fun r => r)
               | None, Some t' =>
                   match p_name t' with
                   | Some (name, t'') =>
                       match name with
                       | [] => None
                       | n0 :: _ =>
                           if is_digit n0 then None
                           else let idx := fst st in
                                closes (p_alt f t'' (S idx, snd st ++ [(string_of_list_ascii name, idx)]))
                                       (Grp idx)
                       end
                   | None => None
                   end
               | None, None =>
                   match t with
                   | q :: _ =>
                       if Ascii.eqb q "?" then None
                       else closes (p_alt f t (S (fst st), snd st)) (Grp (fst st))
                   | [] => None
                   end
               end
          else if Ascii.eqb c "[" then option_map (fun r => (fst r, snd r, st)) (p_set t)
          else if Ascii.eqb c backslash
          then match t with
               | e :: t' => option_map (fun r => (r, t', st)) (p_escape e)
               | [] => None
               end
          else if Ascii.eqb c "." then Some (Any, t, st)
          else if existsb (Ascii.eqb c) ["*"; "+"; "?"; "{"; "^"; "$"]%char then None
          else Some (Chr c, t, st)
      end
  end.

Definition parse (pattern : string) : option (regex * nat * list (string * nat)) :=
  let s := list_ascii_of_string pattern in
  match p_alt (3 * List.length s + 3) s (1, []) with
  | Some (r, [], (n, names)) => Some (r, n - 1, names)
  | _ => None
  end.

Definition compile (pattern : string) (flags : Z) : result compiled :=
  if ((flags <? 0) || negb (Z.land flags (Z.lnot 58) =? 0))%Z
  then Raise ReError
  else match parse pattern with
       | Some (r, n, names) => Ok (mkCompiled r n names flags)
       | None => Raise ReError
       end.

(** The public names of the [re] module that every CPython 3 release has:
    the flags with their values, and the functions and classes. *)
Definition getattr (name : string) : option pyobj :=
  let flags :=
    [("A", 256); ("ASCII", 256); ("DEBUG", 128); ("DOTALL", 16); ("I", 2);
     ("IGNORECASE", 2); ("L", 4); ("LOCALE", 4); ("M", 8); ("MULTILINE", 8);
     ("S", 16); ("U", 32); ("UNICODE", 32); ("VERBOSE", 64); ("X", 64)]%Z in
  let others :=
    ["Match"; "Pattern"; "RegexFlag"; "compile"; "error"; "escape"; "findall";
     "finditer"; "fullmatch"; "match"; "purge"; "search"; "split"; "sub"; "subn"] in
  match dict_get flags name with
  | Some z => Some (PyInt z)
  | None => if existsb (String.eqb name) others then Some PyOther else None
  end.

(** A string under the conversion [!s] or an empty format specification
    is itself; no other suffix is rendered here. *)
Definition render_suffix (v suffix : string) : result string :=
  if existsb (String.eqb suffix) ["!s"; ":"; "!s:"] then Ok v else Raise ValueError.

Lemma search_first : forall (c : compiled) (text : string),
  search c text = hd_error (finditer c text).
Proof.
  intros c text. unfold search, finditer.
  replace (2 * List.length (list_ascii_of_string text) + 2)
    with (S (2 * List.length (list_ascii_of_string text) + 1)) by lia.
  cbn [iter].
  destruct (scan c false (list_ascii_of_string text)) as [[[matched rest] caps]|];
    reflexivity.
Qed.

Definition lib : PyLib :=
  {| pattern_obj := compiled;
     re_getattr := getattr;
     re_compile := compile;
     rx_search := search;
     rx_finditer := finditer;
     format_suffix := render_suffix;
     rx_search_first := search_first |}.

End Cpy.

(** ** Concrete inputs *)

(** The compiled form of a pattern of the fragment. *)
Definition compiled_of (pattern : string) (flags : Z) : Cpy.compiled :=
  match Cpy.compile pattern flags with
  | Ok c => c
  | Raise _ => Cpy.mkCompiled Cpy.Eps 0 [] 0
  end.

Definition directive (mode : option string) (pattern : string) (value_expr : option string)
                     (flags : option (list string)) : extractor :=
  mkExtractor (Some "Technical") (Some "1.2") (Some "Capacity") (Some "MW") None
              mode (Some pattern) value_expr flags.

Definition capacity_pages : list page :=
  [(1, "Unit 1: 250 MW, Unit 2: 300 MW"); (2, "no figures on this page");
   (3, "Unit 3: 50 mw")]%Z.

Definition capacity_pattern : string := "(\d+)\s*MW".

Definition tender_rules : rules :=
  mkRules [] [("TenderNo", "Tender No[:\s]+(\S+)")]
          [("TenderNo", "TBD"); ("Authority", "SECI")].

Definition tender_pdf : pdf :=
  mkPdf "rfs.pdf" [Some "Request for Selection of bidders"; None].

Definition notice_pdf : pdf :=
  mkPdf "notice.pdf" [Some "Notice to bidders dated 12/05/2024: bid due date extended"].

Definition corrigendum_pdf : pdf :=
  mkPdf "corr1.pdf" [Some "Corrigendum No. 1 to Addendum No. 3"; Some "Dated 12/05/2024"].

Definition addendum_pdf : pdf :=
  mkPdf "addendum2.pdf" [None; Some "Addendum No. 2, issued on 12/05/2024 and 14.05.24"].

Definition revised_addendum_pdf : pdf :=
  mkPdf "addendum3.pdf"
        [Some "Tender notice"; Some "Addendum No. 3, issued on 12/05/2024";
         Some "It replaces Corrigendum No. 1 of 03/04/2024"].

(** ** Utilities outside the pipeline, and more vocabulary *)

(** The value of a text of decimal digits, most significant first. *)
Definition digits_value (ds : list ascii) : N :=
  fold_left (fun acc c => (10 * acc + (N_of_ascii c - 48))%N) ds 0%N.

(** [int(text)] on a text of decimal digits only: [ValueError] on the empty
    text, and on a text longer than the interpreter's limit for the
    conversion when the limit is set ([max_str_digits], 0 for no limit,
    4300 unless changed). *)
Definition int_of_digits (max_str_digits : nat) (ds : list ascii) : result N :=
  match ds with
  | [] => Raise ValueError
  | _ :: _ =>
      if (0 <? max_str_digits) && (max_str_digits <? List.length ds)
      then Raise ValueError
      else Ok (digits_value ds)
  end.

(** [to_int]: the digits of the text are kept, the rest is dropped, and an
    exception of the conversion gives [None]. *)
Definition to_int (max_str_digits : nat) (s : string) : option N :=
  match int_of_digits max_str_digits (filter is_digit (list_ascii_of_string s)) with
  | Ok n => Some n
  | Raise _ => None
  end.

(** Every whitespace character is a space and follows a character that is
    not whitespace ([after_space]: the previous character was one). *)
Fixpoint spaced (after_space : bool) (s : list ascii) : bool :=
  match s with
  | [] => true
  | c :: t =>
      if is_space c
      then negb after_space && Ascii.eqb c " " && spaced true t
      else spaced false t
  end.

Definition starts_clean (s : list ascii) : bool :=
  match s with
  | [] => true
  | c :: _ => negb (is_space c)
  end.

(** A text in cleaned form: single spaces only, none at either end. *)
Definition tidy (s : string) : bool :=
  let l := list_ascii_of_string s in
  spaced false l && starts_clean l && starts_clean (rev l).

Definition visible (s : string) : list ascii :=
  filter (fun c => negb (is_space c)) (list_ascii_of_string s).

(** The pages [main] scans: those of all main PDFs, in file order. *)
Definition pages_simple (main_pdfs : list pdf) : list page :=
  flat_map read_pdf_text_with_pages main_pdfs.

(** * Properties *)

(** ** Dicts and keyword arguments *)

Lemma dict_set_head : forall (V : Type) (d : dict V) k v k0 v0,
  exists v' t, dict_set ((k0, v0) :: d) k v = (k0, v') :: t.
Proof.
  intros V d k v k0 v0. simpl. destruct (String.eqb k0 k); eauto.
Qed.

Lemma fold_dict_set_head : forall (V W : Type) (f : W -> string) (g : W -> V)
                                  (l : list W) (d : dict V) k0 v0,
  exists v' t,
    fold_left (fun d' x => dict_set d' (f x) (g x)) l ((k0, v0) :: d) = (k0, v') :: t.
Proof.
  intros V W f g l. induction l as [|x l IH]; intros d k0 v0; simpl.
  - eauto.
  - destruct (String.eqb k0 (f x)); apply IH.
Qed.

Lemma fold_dict_set_nonempty : forall (V W : Type) (f : W -> string) (g : W -> V)
                                      (l : list W) (d : dict V),
  d <> [] \/ l <> [] ->
  fold_left (fun d' x => dict_set d' (f x) (g x)) l d <> [].
Proof.
  intros V W f g l d H.
  assert (Hne : forall l0 d0, d0 <> [] ->
            fold_left (fun d' x => dict_set d' (f x) (g x)) l0 d0 <> []).
  { intros l0 [|[k0 v0] d0] Hd; [congruence|].
    destruct (fold_dict_set_head f g l0 d0 k0 v0) as (v' & t & E). rewrite E. discriminate. }
  destruct d as [|kv d].
  - destruct l as [|x l]; [destruct H; congruence|].
    simpl. apply Hne. discriminate.
  - apply Hne. discriminate.
Qed.

Lemma rekeyed_head : forall (d : dict string) k0 v0,
  exists v' t, rekeyed ((k0, v0) :: d) = (k0, v') :: t.
Proof.
  intros d k0 v0. unfold rekeyed. simpl.
  apply (fold_dict_set_head (fun kv : string * string => fst kv) (fun kv => snd kv)).
Qed.

Lemma dict_mem_app : forall (V : Type) (d1 d2 : dict V) k,
  dict_mem (d1 ++ d2) k = dict_mem d1 k || dict_mem d2 k.
Proof. intros. unfold dict_mem. apply existsb_app. Qed.

Lemma call_kwargs_ok : forall kw2 kw1 kw,
  call_kwargs kw1 kw2 = Ok kw ->
  kw = kw1 ++ kw2 /\ forall k, dict_mem kw2 k = true -> dict_mem kw1 k = false.
Proof.
  induction kw2 as [|[k v] t IH]; simpl; intros kw1 kw H.
  - inversion H; subst. rewrite app_nil_r. split; [reflexivity|]. discriminate.
  - destruct (dict_mem kw1 k) eqn:Ek; [discriminate|].
    apply IH in H. destruct H as [-> Hk]. split.
    + rewrite <- app_assoc. reflexivity.
    + intros k' Hk'. destruct (String.eqb k k') eqn:E.
      * apply String.eqb_eq in E. subst. exact Ek.
      * simpl in Hk'. specialize (Hk k' Hk').
        rewrite dict_mem_app in Hk. apply orb_false_iff in Hk. tauto.
Qed.

(** Unpacking one non-empty dict twice in a call always raises. *)
Lemma call_kwargs_twice : forall (d : dict string) kw,
  d <> [] ->
  bind (call_kwargs [] d) (fun kw1 => call_kwargs kw1 (rekeyed d)) <> Ok kw.
Proof.
  intros d kw Hd H. destruct d as [|[k0 v0] d]; [congruence|].
  destruct (call_kwargs [] ((k0, v0) :: d)) as [kw1|e] eqn:E1; simpl in H; [|discriminate].
  apply call_kwargs_ok in E1. destruct E1 as [-> _]. simpl in H.
  destruct (rekeyed_head d k0 v0) as (v' & t & E). rewrite E in H.
  simpl in H. rewrite String.eqb_refl in H. simpl in H. discriminate.
Qed.

(** ** Cleaning and rendering *)

Example clean_text_collapses :
  clean_text (Some (String " " (String " " ("250   MW" ++ String (ascii_of_N 10) "")))%string)
  = "250 MW" /\
  clean_text None = "".
Proof. split; reflexivity. Qed.

Section RenderFacts.
Context {P : PyLib}.

Lemma render_fallback_returns : forall m,
  render_fallback m =
  Ok (match groups m with
      | [] => clean_text (Some (group0 m))
      | g :: _ => clean_text g
      end).
Proof.
  intros m. unfold render_fallback. destruct (groups m) as [|g rest] eqn:E.
  - reflexivity.
  - unfold group. simpl. rewrite E. reflexivity.
Qed.

Lemma render_value_returns : forall value_expr m,
  exists s, render_value value_expr m = Ok s.
Proof.
  intros value_expr m. unfold render_value.
  destruct (bind (call_kwargs [] (fmt_dict_of m)) _) as [s|e].
  - eauto.
  - rewrite render_fallback_returns. eauto.
Qed.

Lemma fmt_dict_nonempty : forall m, groups m <> [] -> fmt_dict_of m <> [].
Proof.
  intros m Hg. unfold fmt_dict_of.
  apply (fold_dict_set_nonempty (fun kv : string * option string => fst kv)
                                (fun kv => clean_text (snd kv))).
  left.
  apply (fold_dict_set_nonempty (fun ig : nat * option string => str_of_nat (fst ig))
                                (fun ig => clean_text (snd ig))).
  right. destruct (groups m); [congruence|]. discriminate.
Qed.

(** With a non-empty [fmt_dict] the template is never resolved: the call
    of [format] raises, and the handler's value is returned. *)
Lemma render_value_fmt_nonempty : forall value_expr m,
  fmt_dict_of m <> [] -> render_value value_expr m = render_fallback m.
Proof.
  intros value_expr m Hd. unfold render_value.
  destruct (bind (call_kwargs [] (fmt_dict_of m)) _) as [s|e] eqn:E; [|reflexivity].
  exfalso.
  destruct (call_kwargs [] (fmt_dict_of m)) as [kw1|e1] eqn:E1; simpl in E; [|discriminate].
  destruct (call_kwargs kw1 (rekeyed (fmt_dict_of m))) as [kw|e2] eqn:E2; simpl in E;
    [|discriminate].
  apply (@call_kwargs_twice (fmt_dict_of m) kw Hd).
  rewrite E1. simpl. exact E2.
Qed.

Lemma render_value_with_groups : forall value_expr m,
  groups m <> [] -> render_value value_expr m = render_fallback m.
Proof.
  intros. apply render_value_fmt_nonempty. apply fmt_dict_nonempty. assumption.
Qed.

(** Without keyword arguments every replacement field raises, so the
    rendering of a found value is never asked for. *)
Lemma format_field_no_kwargs : forall f,
  format_field [] f = Raise IndexError \/ format_field [] f = Raise KeyError.
Proof.
  intros f. unfold format_field. destruct (split_arg_name f) as [name suffix].
  destruct (forallb is_digit name); simpl; auto.
Qed.

End RenderFacts.

(** ** Scans and the extraction loop *)

Lemma option_eq_dec_all : forall mode : option string,
  {mode = Some "all"} + {mode <> Some "all"}.
Proof.
  intros [mode|]; [|right; discriminate].
  destruct (String.string_dec mode "all") as [->|Hne]; [left; reflexivity|].
  right. congruence.
Qed.

Section ExtractionFacts.
Context {P : PyLib}.

Lemma fold_append_pairs : forall (pn : Z) (ms : list Match) (hits : list (Z * Match)),
  fold_left (fun h m => h ++ [(pn, m)]) ms hits = hits ++ map (pair pn) ms.
Proof.
  intros pn ms. induction ms as [|m ms IH]; intros hits; simpl.
  - rewrite app_nil_r. reflexivity.
  - rewrite IH, <- app_assoc. reflexivity.
Qed.

Lemma all_hits_spec : forall rx pages hits,
  all_hits hits rx pages = hits ++ hits_of rx pages.
Proof.
  intros rx pages. induction pages as [|[pn text] rest IH]; intros hits; simpl.
  - rewrite app_nil_r. reflexivity.
  - rewrite IH, fold_append_pairs, <- app_assoc. reflexivity.
Qed.

Lemma hits_of_length : forall rx pages,
  List.length (hits_of rx pages) = total_matches rx pages.
Proof.
  intros rx pages. unfold hits_of, total_matches.
  induction pages as [|p rest IH]; simpl; [reflexivity|].
  rewrite length_app, length_map, IH. reflexivity.
Qed.

Lemma append_hits_spec : forall ext hits results,
  exists rows,
    append_hits results ext hits = Ok (results ++ rows) /\
    Forall2 (fun row hit =>
               SourcePage row = fst hit /\
               render_value (get (ext_value_expr ext) "{0}") (snd hit) = Ok (Value row) /\
               row = row_of ext (Value row) (fst hit))
            rows hits.
Proof.
  intros ext hits. induction hits as [|[pn m] rest IH]; intros results; simpl.
  - exists []. rewrite app_nil_r. split; [reflexivity|constructor].
  - destruct (render_value_returns (get (ext_value_expr ext) "{0}") m) as [v Ev].
    rewrite Ev. simpl.
    destruct (IH (results ++ [row_of ext v pn])) as (rows & Erows & Hrows).
    exists (row_of ext v pn :: rows). split.
    + rewrite Erows, <- app_assoc. reflexivity.
    + constructor; [|exact Hrows]. simpl. auto.
Qed.

Lemma first_hit_none : forall rx pages,
  first_hit rx pages = None <-> forall p, In p pages -> rx_search rx (snd p) = None.
Proof.
  intros rx pages. induction pages as [|[pn text] rest IH]; simpl.
  - split; [intros _ p []|reflexivity].
  - destruct (rx_search rx text) as [m|] eqn:E.
    + split; [discriminate|]. intros H. specialize (H (pn, text) (or_introl eq_refl)).
      simpl in H. congruence.
    + rewrite IH. split.
      * intros H p [<-|Hp]; [exact E|auto].
      * intros H p Hp. apply H. right. exact Hp.
Qed.

Lemma first_hit_some : forall rx pre pn text post m,
  (forall p, In p pre -> rx_search rx (snd p) = None) ->
  rx_search rx text = Some m ->
  first_hit rx (pre ++ (pn, text) :: post) = Some (pn, m).
Proof.
  intros rx pre pn text post m. induction pre as [|[pn0 t0] pre IH]; intros Hpre Hm; simpl.
  - rewrite Hm. reflexivity.
  - pose proof (Hpre (pn0, t0) (or_introl eq_refl)) as E0. simpl in E0. rewrite E0.
    apply IH; [|exact Hm].
    intros p Hp. apply Hpre. right. exact Hp.
Qed.

Lemma first_hit_split : forall rx pages pn m,
  first_hit rx pages = Some (pn, m) ->
  exists pre text post,
    pages = pre ++ (pn, text) :: post /\
    (forall p, In p pre -> rx_search rx (snd p) = None) /\
    rx_search rx text = Some m.
Proof.
  intros rx pages pn m. induction pages as [|[pn0 t0] rest IH]; simpl; intros H.
  - discriminate.
  - destruct (rx_search rx t0) as [m0|] eqn:E.
    + inversion H; subst. exists [], t0, rest. repeat split; auto. intros p [].
    + destruct (IH H) as (pre & text & post & -> & Hpre & Hm).
      exists ((pn0, t0) :: pre), text, post. repeat split; auto.
      intros p [<-|Hp]; [exact E|auto].
Qed.

(** [find_first] returns the head of what [find_all] collects. *)
Lemma first_hit_head : forall rx pages,
  first_hit rx pages = hd_error (hits_of rx pages).
Proof.
  intros rx pages. induction pages as [|[pn text] rest IH]; simpl; [reflexivity|].
  rewrite rx_search_first.
  destruct (rx_finditer rx text) as [|m ms]; simpl; [exact IH|reflexivity].
Qed.

(** What one turn of the loop does once the flags and the pattern are
    compiled. *)
Lemma extract_all : forall results pages ext rx,
  compiles ext rx -> ext_mode ext = Some "all" ->
  extract results pages ext = append_hits results ext (hits_of rx pages).
Proof.
  intros results pages ext rx (fl & Hfl & Hrx) Hmode. unfold extract.
  rewrite Hfl, Hmode. simpl. unfold find_all. rewrite Hrx. simpl.
  rewrite all_hits_spec. reflexivity.
Qed.

Lemma extract_first : forall results pages ext rx,
  compiles ext rx -> ext_mode ext <> Some "all" ->
  extract results pages ext =
  match first_hit rx pages with
  | Some (pn, m) =>
      value <- render_value (get (ext_value_expr ext) "{0}") m ;;
      Ok (results ++ [row_of ext value pn])
  | None => Ok results
  end.
Proof.
  intros results pages ext rx (fl & Hfl & Hrx) Hmode. unfold extract.
  rewrite Hfl. simpl.
  assert (E : String.eqb (get (ext_mode ext) "first") "all" = false).
  { destruct (ext_mode ext) as [mode|]; simpl; [|reflexivity].
    apply String.eqb_neq. congruence. }
  rewrite E. unfold find_first. rewrite Hrx. simpl.
  destruct (first_hit rx pages) as [[pn m]|]; reflexivity.
Qed.

(** A turn of the loop only adds rows at the end of [results]. *)
Lemma extract_appends : forall results pages ext rx,
  compiles ext rx ->
  exists rows, extract results pages ext = Ok (results ++ rows) /\
               extract [] pages ext = Ok rows.
Proof.
  intros results pages ext rx Hc.
  destruct (option_eq_dec_all (ext_mode ext)) as [Hmode|Hmode].
  - rewrite !(extract_all _ pages Hc Hmode).
    destruct (append_hits_spec ext (hits_of rx pages) results) as (rows & E & Hrows).
    destruct (append_hits_spec ext (hits_of rx pages) []) as (rows0 & E0 & Hrows0).
    exists rows. split; [exact E|]. rewrite E0. simpl. f_equal.
    clear E E0. revert rows0 Hrows0.
    induction Hrows as [|row hit rows hits (Hp & Hv & Hr) _ IH]; intros rows0 H0;
      inversion H0 as [|row0 hit0 rows0' hits0 (Hp0 & Hv0 & Hr0) Hrest]; subst; [reflexivity|].
    rewrite Hr, Hr0. f_equal; [|apply IH; exact Hrest].
    rewrite Hv in Hv0. inversion Hv0. reflexivity.
  - rewrite !(extract_first _ pages Hc Hmode).
    destruct (first_hit rx pages) as [[pn m]|].
    + destruct (render_value_returns (get (ext_value_expr ext) "{0}") m) as [v Ev].
      rewrite Ev. simpl. eauto.
    + exists []. rewrite app_nil_r. auto.
Qed.

End ExtractionFacts.

(** ** The executable runtime *)

Lemma set_nth_length : forall (A : Type) (l : list A) i a,
  List.length (set_nth l i a) = List.length l.
Proof.
  induction l as [|x t IH]; intros i a; [reflexivity|].
  destruct i; simpl; [reflexivity|]. rewrite IH. reflexivity.
Qed.

(** The matcher keeps one capture slot per group. *)
Lemma rep_loop_keeps_slots :
  forall (n : nat)
         (body : list ascii -> Cpy.captures ->
                 (list ascii -> Cpy.captures -> Cpy.outcome) -> Cpy.outcome)
         (lo : nat) (hi : option nat) (k : list ascii -> Cpy.captures -> Cpy.outcome),
  (forall s caps k' res,
      (forall s' caps' res',
          List.length caps' = n -> k' s' caps' = Some res' -> List.length (snd res') = n) ->
      List.length caps = n ->
      body s caps k' = Some res -> List.length (snd res) = n) ->
  (forall s' caps' res',
      List.length caps' = n -> k s' caps' = Some res' -> List.length (snd res') = n) ->
  forall fuel count last s caps res,
    List.length caps = n ->
    Cpy.rep_loop body lo hi k fuel count last s caps = Some res ->
    List.length (snd res) = n.
Proof.
  intros n body lo hi k Hbody Hk.
  induction fuel as [|fuel IHf]; intros count last s caps res Hcaps Hrun; simpl in Hrun.
  - destruct (lo <=? count); [eauto|discriminate].
  - match type of Hrun with
    | (if ?b then _ else _) = _ => destruct b
    end.
    + match type of Hrun with
      | match ?turn with _ => _ end = _ => destruct turn as [x|] eqn:E
      end.
      * injection Hrun as <-. refine (Hbody s caps _ x _ Hcaps E).
        intros s' caps' res' Hc' Hr'. apply (IHf _ _ s' caps' res' Hc' Hr').
      * destruct (lo <=? count); [eauto|discriminate].
    + destruct (lo <=? count); [eauto|discriminate].
Qed.

(** The matcher keeps one capture slot per group. *)
Lemma run_keeps_slots : forall (n : nat) (fl : Z) (r : Cpy.regex) (s : list ascii)
                               (caps : Cpy.captures)
                               (k : list ascii -> Cpy.captures -> Cpy.outcome)
                               (res : list ascii * Cpy.captures),
  (forall s' caps' res',
      List.length caps' = n -> k s' caps' = Some res' -> List.length (snd res') = n) ->
  List.length caps = n ->
  Cpy.run fl r s caps k = Some res ->
  List.length (snd res) = n.
Proof.
  intros n fl r.
  induction r as [c| |negated items| |r1 IH1 r2 IH2|r1 IH1 r2 IH2|lo hi r1 IH1|idx r1 IH1];
    intros s caps k res Hk Hcaps Hrun; cbn [Cpy.run] in Hrun.
  - destruct s as [|x t]; [discriminate|].
    destruct (Cpy.chr_matches fl c x); [eauto|discriminate].
  - destruct s as [|x t]; [discriminate|].
    destruct (Cpy.any_matches fl x); [eauto|discriminate].
  - destruct s as [|x t]; [discriminate|].
    destruct (Cpy.cls_matches fl negated items x); [eauto|discriminate].
  - eauto.
  - refine (IH1 s caps _ res _ Hcaps Hrun).
    intros s' caps' res' Hc' Hr'. apply (IH2 s' caps' k res' Hk Hc' Hr').
  - destruct (Cpy.run fl r1 s caps k) as [x|] eqn:E.
    + injection Hrun as <-. apply (IH1 s caps k x Hk Hcaps E).
    + apply (IH2 s caps k res Hk Hcaps Hrun).
  - apply (rep_loop_keeps_slots (n := n) (Cpy.run fl r1) lo hi k IH1 Hk _ _ _ _ _ Hcaps Hrun).
  - refine (IH1 s caps _ res _ Hcaps Hrun).
    intros s' caps' res' Hc' Hr'. refine (Hk _ _ res' _ Hr').
    rewrite set_nth_length. exact Hc'.
Qed.

Lemma scan_keeps_slots : forall (c : Cpy.compiled) (s : list ascii) (must_advance : bool)
                                matched rest caps,
  Cpy.scan c must_advance s = Some (matched, rest, caps) ->
  List.length caps = Cpy.c_ngroups c.
Proof.
  intros c s. induction s as [|x t IH]; intros must_advance matched rest caps H;
    simpl in H.
  - match type of H with
    | match ?body with _ => _ end = _ => destruct body as [[s' caps']|] eqn:E
    end; [|discriminate].
    inversion H; subst.
    apply (run_keeps_slots (n := Cpy.c_ngroups c)) in E; [exact E| |apply repeat_length].
    intros s1 caps1 res1 Hc1 Hr1.
    match type of Hr1 with
    | (if ?b then _ else _) = _ => destruct b
    end; [discriminate|].
    injection Hr1 as <-. exact Hc1.
  - match type of H with
    | match ?body with _ => _ end = _ => destruct body as [[s' caps']|] eqn:E
    end.
    + inversion H; subst.
      apply (run_keeps_slots (n := Cpy.c_ngroups c)) in E; [exact E| |apply repeat_length].
      intros s1 caps1 res1 Hc1 Hr1.
      match type of Hr1 with
      | (if ?b then _ else _) = _ => destruct b
      end; [discriminate|].
      injection Hr1 as <-. exact Hc1.
    + apply (IH false matched rest caps H).
Qed.

(** A match found by the executable runtime has one entry per capturing
    group of its pattern. *)
Lemma search_groups : forall (c : Cpy.compiled) (text : string) (m : Match),
  Cpy.search c text = Some m -> List.length (groups m) = Cpy.c_ngroups c.
Proof.
  intros c text m H. unfold Cpy.search in H.
  destruct (Cpy.scan c false (list_ascii_of_string text)) as [[[matched rest] caps]|] eqn:E;
    [|discriminate].
  inversion H; subst. simpl. apply (scan_keeps_slots c _ false E).
Qed.

Lemma first_hit_groups : forall (c : Cpy.compiled) (pages : list page) pn m,
  first_hit (P := Cpy.lib) c pages = Some (pn, m) ->
  List.length (groups m) = Cpy.c_ngroups c.
Proof.
  intros c pages pn m H. apply first_hit_split in H.
  destruct H as (pre & text & post & _ & _ & Hm). apply (search_groups c text Hm).
Qed.

(** ** The claims about the extraction loop *)

Section LoopClaims.
Context {P : PyLib}.

Lemma run_from_spec : forall pages exts rxs,
  Forall2 compiles exts rxs ->
  forall results,
  exists rowss,
    run_from results pages exts = Ok (results ++ List.concat rowss) /\
    Forall2 (fun er rows =>
               extract [] pages (fst er) = Ok rows /\
               (ext_mode (fst er) = Some "all" ->
                List.length rows = total_matches (snd er) pages /\
                Forall2 (fun row hit =>
                           SourcePage row = fst hit /\
                           render_value (get (ext_value_expr (fst er)) "{0}") (snd hit)
                             = Ok (Value row) /\
                           row = row_of (fst er) (Value row) (fst hit))
                        rows (hits_of (snd er) pages)))
            (combine exts rxs) rowss.
Proof.
  intros pages exts rxs H. induction H as [|ext rx exts rxs Hc _ IH]; intros results.
  - exists []. simpl. rewrite app_nil_r. split; [reflexivity|constructor].
  - destruct (extract_appends results pages Hc) as (rows & E & E0).
    destruct (IH (results ++ rows)) as (rowss & Erun & Hrowss).
    exists (rows :: rowss). split.
    + simpl. rewrite E. simpl. rewrite Erun, <- app_assoc. reflexivity.
    + simpl. constructor; [|exact Hrowss]. simpl. split; [exact E0|].
      intros Hmode. rewrite (extract_all [] pages Hc Hmode) in E0.
      destruct (append_hits_spec ext (hits_of rx pages) []) as (rows' & E' & Hrows').
      rewrite E' in E0. simpl in E0. inversion E0; subst rows'.
      split; [|exact Hrows'].
      rewrite <- hits_of_length. clear - Hrows'.
      induction Hrows'; simpl; congruence.
Qed.

End LoopClaims.

(** C3.  When the flag list and the pattern of every directive compile,
    [run_extractors] returns the rows of the directives one after the other
    in declaration order.  For a directive in "all" mode the number of its
    rows is the total number of matches over all pages, and its rows stand
    in discovery order (page by page, left to right within a page): each
    row carries the page number of its own match as SourcePage and the
    rendering of that match as Value. *)
Theorem all_mode_rows : forall (P : PyLib) (pages : list page)
                               (exts : list extractor) (rxs : list pattern_obj),
  Forall2 compiles exts rxs ->
  exists rowss,
    run_extractors pages exts = Ok (List.concat rowss) /\
    Forall2 (fun er rows =>
               extract [] pages (fst er) = Ok rows /\
               (ext_mode (fst er) = Some "all" ->
                List.length rows = total_matches (snd er) pages /\
                Forall2 (fun row hit =>
                           SourcePage row = fst hit /\
                           render_value (get (ext_value_expr (fst er)) "{0}") (snd hit)
                             = Ok (Value row) /\
                           row = row_of (fst er) (Value row) (fst hit))
                        rows (hits_of (snd er) pages)))
            (combine exts rxs) rowss.
Proof.
  intros P pages exts rxs H.
  destruct (run_from_spec pages H []) as (rowss & E & Hrowss).
  exists rowss. split; [exact E|exact Hrowss].
Qed.

Lemma all_mode_rows_witness :
  Forall2 (compiles (P := Cpy.lib))
          [directive (Some "all") capacity_pattern None None;
           directive None "Unit (\d)" None (Some ["IGNORECASE"; "DOTALL"])]
          [compiled_of capacity_pattern 2; compiled_of "Unit (\d)" 18] /\
  exists rowss,
    run_extractors (P := Cpy.lib) capacity_pages
      [directive (Some "all") capacity_pattern None None;
       directive None "Unit (\d)" None (Some ["IGNORECASE"; "DOTALL"])]
    = Ok (List.concat rowss) /\
    List.length rowss = 2.
Proof.
  assert (H : Forall2 (compiles (P := Cpy.lib))
                [directive (Some "all") capacity_pattern None None;
                 directive None "Unit (\d)" None (Some ["IGNORECASE"; "DOTALL"])]
                [compiled_of capacity_pattern 2; compiled_of "Unit (\d)" 18]).
  { constructor; [exists 2%Z; split; vm_compute; reflexivity|].
    constructor; [exists 18%Z; split; vm_compute; reflexivity|].
    constructor. }
  split; [exact H|].
  destruct (all_mode_rows capacity_pages H) as (rowss & E & Hrowss).
  exists rowss. split; [exact E|].
  apply Forall2_length in Hrowss. simpl in Hrowss. symmetry. exact Hrowss.
Defined.

(** A run of the two directives of the witness: three rows for the "all"
    directive, from pages 1, 1 and 3, then one row for the "first" one. *)
Example run_extractors_capacity :
  option_map (map (fun row => (Parameter_ row, Value row, SourcePage row)))
    (match run_extractors (P := Cpy.lib) capacity_pages
             [directive (Some "all") capacity_pattern None None;
              directive None "Unit (\d)" None (Some ["IGNORECASE"; "DOTALL"])] with
     | Ok rows => Some rows
     | Raise _ => None
     end)
  = Some [("Capacity", "250", 1%Z); ("Capacity", "300", 1%Z); ("Capacity", "50", 3%Z);
          ("Capacity", "1", 1%Z)].
Proof. vm_compute. reflexivity. Qed.

(** C4.  For a directive whose mode is not "all", with its flags and
    pattern compiled: if some page matches, the pages before it matching
    nothing, the match taken is the one [search] finds on that page, which
    is the first match of that page and the first of all matches in
    discovery order, and exactly one row is added behind the rows there
    were: its SourcePage is the number of that page, its Value the
    rendering of that match, its other columns the entries of the
    directive; if no page matches, no row is added and nothing is
    raised. *)
Theorem first_mode_rows : forall (P : PyLib) (results : list TagRow) (pages : list page)
                                 (ext : extractor) (rx : pattern_obj),
  compiles ext rx ->
  ext_mode ext <> Some "all" ->
  (forall pre pn text post m,
      pages = pre ++ (pn, text) :: post ->
      (forall p, In p pre -> rx_search rx (snd p) = None) ->
      rx_search rx text = Some m ->
      hd_error (rx_finditer rx text) = Some m /\
      hd_error (hits_of rx pages) = Some (pn, m) /\
      exists row,
        extract results pages ext = Ok (results ++ [row]) /\
        SourcePage row = pn /\
        render_value (get (ext_value_expr ext) "{0}") m = Ok (Value row) /\
        Section_ row = get (ext_section ext) "General" /\
        ClauseRef row = get (ext_clause ext) "" /\
        Parameter_ row = get (ext_parameter ext) "" /\
        Unit row = get (ext_unit ext) "" /\
        Notes row = get (ext_notes ext) "") /\
  ((forall p, In p pages -> rx_search rx (snd p) = None) ->
   hits_of rx pages = [] /\
   extract results pages ext = Ok results).
Proof.
  intros P results pages ext rx Hc Hmode. rewrite (extract_first results pages Hc Hmode).
  split.
  - intros pre pn text post m -> Hpre Hm.
    pose proof (first_hit_some rx pre pn text post Hpre Hm) as Hhit.
    split; [rewrite <- rx_search_first; exact Hm|].
    split; [rewrite <- first_hit_head; exact Hhit|].
    rewrite Hhit.
    destruct (render_value_returns (get (ext_value_expr ext) "{0}") m) as [v Ev].
    exists (row_of ext v pn). rewrite Ev. simpl. repeat split; reflexivity.
  - intros Hnone. split.
    + unfold hits_of. induction pages as [|[pn text] rest IH]; simpl; [reflexivity|].
      pose proof (Hnone (pn, text) (or_introl eq_refl)) as E. simpl in E.
      rewrite rx_search_first in E.
      destruct (rx_finditer rx text) as [|m ms]; [|discriminate]. simpl.
      apply IH. intros p Hp. apply Hnone. right. exact Hp.
    + apply first_hit_none in Hnone. rewrite Hnone. reflexivity.
Qed.

Lemma first_mode_rows_witness :
  extract (P := Cpy.lib) [] [(1, "no figures on this page")]%Z
          (directive (Some "first") capacity_pattern None None)
  = Ok [] /\
  exists row,
    extract (P := Cpy.lib) []
            ([(1, "no figures on this page")] ++
             (2, "Unit 1: 250 MW, Unit 2: 300 MW") :: [(3, "Unit 3: 50 mw")])%Z
            (directive (Some "first") capacity_pattern None None)
    = Ok ([] ++ [row]) /\
    SourcePage row = 2%Z /\
    render_value (P := Cpy.lib) "{0}" (mkMatch "250 MW" [Some "250"] []) = Ok (Value row).
Proof.
  assert (Hc : compiles (P := Cpy.lib) (directive (Some "first") capacity_pattern None None)
                        (compiled_of capacity_pattern 2)).
  { exists 2%Z. split; vm_compute; reflexivity. }
  assert (Hmode : ext_mode (directive (Some "first") capacity_pattern None None) <> Some "all").
  { discriminate. }
  split.
  - apply (proj2 (first_mode_rows [] [(1, "no figures on this page")]%Z Hc Hmode)).
    intros p [<-|[]]. vm_compute. reflexivity.
  - destruct (proj1 (first_mode_rows [] _ Hc Hmode)
                    [(1, "no figures on this page")]%Z 2%Z "Unit 1: 250 MW, Unit 2: 300 MW"
                    [(3, "Unit 3: 50 mw")]%Z (mkMatch "250 MW" [Some "250"] []) eq_refl)
      as (_ & _ & row & Erow & Hpage & Hvalue & _).
    + intros p [<-|[]]. vm_compute. reflexivity.
    + vm_compute. reflexivity.
    + exists row. repeat split; assumption.
Defined.



(** ** Rendering claims *)

(** C5.  The template is given to [format] together with a second copy of
    every key, so for a match with a capturing group the call raises and
    the handler's value is returned: with the template "{0} MW" and one
    group that captured "250" the rendered value is "250", whatever the
    runtime. *)
Theorem render_250_MW : forall (P : PyLib),
  render_value "{0} MW" (mkMatch "250" [Some "250"] []) = Ok "250".
Proof.
  intros P. rewrite render_value_with_groups by discriminate. reflexivity.
Qed.

(** The same on a match found by the executable runtime. *)
Example render_found_match :
  option_map (fun m => (groups m, render_value (P := Cpy.lib) "{0} MW" m))
             (Cpy.search (compiled_of "Capacity:\s*(\d+)" 2) "Total capacity:  250")
  = Some ([Some "250"], Ok "250").
Proof. vm_compute. reflexivity. Qed.

(** Templates without replacement fields, resolved against no arguments. *)
Example str_format_literals : forall (P : PyLib),
  str_format "{{a}} b" [] = Ok "{a} b" /\
  str_format "a}" [] = Raise ValueError /\
  str_format "{0} MW" [] = Raise IndexError /\
  str_format "{cap_mw}" [] = Raise KeyError.
Proof. intros P. repeat split; reflexivity. Qed.

(** A template without replacement fields is returned as it is when the
    pattern has no group at all. *)
Example render_without_groups : forall (P : PyLib),
  render_value "yes" (mkMatch "Bid security" [] []) = Ok "yes" /\
  render_value "{0}" (mkMatch " Bid   security" [] []) = Ok "Bid security".
Proof. intros P. split; reflexivity. Qed.

(** C9.  When the pattern has at least one capturing group and the first
    one took no part in the match, the handler of [render_value] gives the
    empty string, and so does [render_value], whatever the template and
    whatever the text of the whole match. *)
Theorem fallback_first_group_absent : forall (P : PyLib) (value_expr : string)
                                             (m : Match) (rest : list (option string)),
  groups m = None :: rest ->
  render_fallback m = Ok "" /\
  render_value value_expr m = Ok "" /\
  (clean_text (Some (group0 m)) <> "" ->
   render_fallback m <> Ok (clean_text (Some (group0 m)))).
Proof.
  intros P value_expr m rest Hg.
  assert (E : render_fallback m = Ok "").
  { rewrite render_fallback_returns, Hg. reflexivity. }
  split; [exact E|]. split.
  - rewrite render_value_with_groups; [exact E|]. rewrite Hg. discriminate.
  - intros Hne. rewrite E. congruence.
Qed.

Lemma fallback_first_group_absent_witness :
  render_fallback (mkMatch "b" [None; Some "b"] []) = Ok "" /\
  render_value (P := Cpy.lib) "{1}" (mkMatch "b" [None; Some "b"] []) = Ok "" /\
  (clean_text (Some "b") <> "" ->
   render_fallback (mkMatch "b" [None; Some "b"] []) <> Ok (clean_text (Some "b"))).
Proof.
  apply (@fallback_first_group_absent Cpy.lib "{1}" (mkMatch "b" [None; Some "b"] [])
                                      [Some "b"]).
  reflexivity.
Defined.

(** ** Flags *)

Section FlagFacts.
Context {P : PyLib}.

(** Names that are unknown to [re] or bound to integers are or-ed. *)
Lemma or_flags_known : forall names fl,
  (forall name, In name names -> re_getattr name <> Some PyOther) ->
  or_flags fl names = Ok (fold_left (fun acc name => Z.lor acc (flag_bits name)) names fl).
Proof.
  induction names as [|name names IH]; intros fl H; simpl; [reflexivity|].
  pose proof (H name (or_introl eq_refl)) as Hn.
  assert (Eb : get (re_getattr name) (PyInt 0) = PyInt (flag_bits name)).
  { unfold flag_bits. destruct (re_getattr name) as [[z|]|]; simpl; congruence. }
  rewrite Eb. apply IH. intros n Hin. apply H. right. exact Hin.
Qed.

Lemma or_flags_unknown_ignored : forall name fl,
  re_getattr name = None -> or_flags fl [name] = Ok fl.
Proof.
  intros name fl H. simpl. rewrite H. simpl. rewrite Z.lor_0_r. reflexivity.
Qed.

Lemma or_flags_other : forall names name fl,
  In name names -> re_getattr name = Some PyOther ->
  or_flags fl names = Raise TypeError.
Proof.
  induction names as [|n names IH]; intros name fl Hin Hother; [destruct Hin|].
  simpl. destruct Hin as [->|Hin].
  - rewrite Hother. reflexivity.
  - destruct (get (re_getattr n) (PyInt 0)); [|reflexivity].
    apply IH with (name := name); assumption.
Qed.

End FlagFacts.

(** C6.  A name of the flag list that [re] binds to something other than
    an integer (a function such as [compile], a class) is not ignored: the
    or-assignment raises TypeError, and the directive is not extracted. *)
Theorem flag_name_of_function_raises : forall (P : PyLib) (results : list TagRow)
                                              (pages : list page) (ext : extractor)
                                              (names : list string) (name : string),
  ext_flags ext = Some names ->
  In name names ->
  re_getattr name = Some PyOther ->
  compile_flags names = Raise TypeError /\
  extract results pages ext = Raise TypeError.
Proof.
  intros P results pages ext names name Hflags Hin Hother.
  assert (E : compile_flags names = Raise TypeError).
  { unfold compile_flags. apply or_flags_other with (name := name); assumption. }
  split; [exact E|]. unfold extract. rewrite Hflags. simpl. rewrite E. reflexivity.
Qed.

Lemma flag_name_of_function_raises_witness :
  compile_flags (P := Cpy.lib) ["IGNORECASE"; "compile"] = Raise TypeError /\
  extract (P := Cpy.lib) [] capacity_pages
          (directive None capacity_pattern None (Some ["IGNORECASE"; "compile"]))
  = Raise TypeError.
Proof.
  apply (@flag_name_of_function_raises Cpy.lib [] capacity_pages
           (directive None capacity_pattern None (Some ["IGNORECASE"; "compile"]))
           ["IGNORECASE"; "compile"] "compile").
  - reflexivity.
  - right. left. reflexivity.
  - reflexivity.
Defined.

(** What does hold: the three documented flags are or-ed, and a name that
    [re] does not have adds nothing. *)
Example compile_flags_documented :
  compile_flags (P := Cpy.lib) ["IGNORECASE"; "MULTILINE"; "DOTALL"; "NO_SUCH_FLAG"]
  = Ok 26%Z.
Proof. reflexivity. Qed.

(** ** Header fields *)

Section HeaderFacts.
Context {P : PyLib}.

Lemma dict_get_set_same : forall (d : dict string) k v,
  dict_get (dict_set d k v) k = Some v.
Proof.
  induction d as [|[k' v'] t IH]; intros k v; simpl.
  - rewrite String.eqb_refl. reflexivity.
  - destruct (String.eqb k' k) eqn:E; simpl; rewrite E; [reflexivity|apply IH].
Qed.

Lemma dict_get_set_other : forall (d : dict string) k v k',
  k' <> k -> dict_get (dict_set d k v) k' = dict_get d k'.
Proof.
  induction d as [|[k0 v0] t IH]; intros k v k' Hne; simpl.
  - destruct (String.eqb k k') eqn:E; [|reflexivity].
    apply String.eqb_eq in E. congruence.
  - destruct (String.eqb k0 k) eqn:E; simpl.
    + apply String.eqb_eq in E. subst k0.
      destruct (String.eqb k k') eqn:E'; [|reflexivity].
      apply String.eqb_eq in E'. congruence.
    + destruct (String.eqb k0 k'); [reflexivity|]. apply IH. exact Hne.
Qed.

Lemma dict_get_mem : forall (d : dict string) k,
  dict_mem d k = true <-> exists v, dict_get d k = Some v.
Proof.
  induction d as [|[k0 v0] t IH]; intros k; simpl.
  - split; [discriminate|intros [v H]; discriminate].
  - destruct (String.eqb k0 k); simpl; [split; eauto|apply IH].
Qed.

Lemma dict_get_app : forall (d1 d2 : dict string) k,
  dict_get (d1 ++ d2) k =
  match dict_get d1 k with
  | Some v => Some v
  | None => dict_get d2 k
  end.
Proof.
  induction d1 as [|[k0 v0] t IH]; intros d2 k; simpl; [reflexivity|].
  destruct (String.eqb k0 k); [reflexivity|apply IH].
Qed.

(** [setdefault] never touches a key that is present, whatever its value. *)
Lemma apply_defaults_present : forall dflt (vals : dict string) k v,
  dict_get vals k = Some v -> dict_get (apply_defaults vals dflt) k = Some v.
Proof.
  unfold apply_defaults.
  induction dflt as [|[k0 v0] t IH]; intros vals k v H; simpl; [exact H|].
  apply IH. unfold dict_setdefault. destruct (dict_mem vals k0); [exact H|].
  rewrite dict_get_app, H. reflexivity.
Qed.

(** A key that is absent takes the value the defaults give it. *)
Lemma apply_defaults_absent : forall dflt (vals : dict string) k,
  dict_get vals k = None -> dict_get (apply_defaults vals dflt) k = dict_get dflt k.
Proof.
  unfold apply_defaults.
  induction dflt as [|[k0 v0] t IH]; intros vals k H; simpl; [exact H|].
  unfold dict_setdefault. destruct (dict_mem vals k0) eqn:Em.
  - destruct (String.eqb k0 k) eqn:E.
    + apply String.eqb_eq in E. subst k0.
      apply dict_get_mem in Em. destruct Em as [v Hv]. congruence.
    + apply IH. exact H.
  - destruct (String.eqb k0 k) eqn:E.
    + apply String.eqb_eq in E. subst k0.
      apply (apply_defaults_present t). rewrite dict_get_app, H. simpl.
      rewrite String.eqb_refl. reflexivity.
    + apply IH. rewrite dict_get_app, H. simpl. rewrite E. reflexivity.
Qed.

End HeaderFacts.

(** C1.  A header field whose extraction gave the empty string keeps the
    empty string: [setdefault] sees the key and leaves it, whatever the
    defaults declare for the field. *)
Theorem empty_extraction_blocks_default : forall (P : PyLib) (pages : list page) (r : rules)
                                                 (hv : dict string) (field : string),
  header_values [] pages (bid_info_map r) = Ok hv ->
  dict_get hv field = Some "" ->
  exists vals, bid_info_values pages r = Ok vals /\ dict_get vals field = Some "".
Proof.
  intros P pages r hv field Hhv Hfield. unfold bid_info_values. rewrite Hhv. simpl.
  eexists. split; [reflexivity|]. apply apply_defaults_present. exact Hfield.
Qed.

Lemma empty_extraction_blocks_default_witness :
  dict_get (defaults tender_rules) "TenderNo" = Some "TBD" /\
  exists vals,
    bid_info_values (P := Cpy.lib) (read_pdf_text_with_pages tender_pdf) tender_rules
      = Ok vals /\
    dict_get vals "TenderNo" = Some "".
Proof.
  split; [reflexivity|].
  apply (@empty_extraction_blocks_default Cpy.lib (read_pdf_text_with_pages tender_pdf)
           tender_rules [("TenderNo", "")] "TenderNo").
  - vm_compute. reflexivity.
  - reflexivity.
Defined.

(** The BID_INFO sheet of that run: the unmatched field is empty although a
    default is declared for it; the field that has no pattern takes its
    default. *)
Example bid_info_sheet_tender :
  bid_info_sheet (P := Cpy.lib) [tender_pdf] tender_rules
  = Ok (Some [(0, ("TenderNo", "")); (1, ("Authority", "SECI"))]%Z).
Proof. vm_compute. reflexivity. Qed.



(** ** The BID_INFO upsert *)

(** *** The two columns *)

Lemma dict_mem_in : forall (d : dict string) k, dict_mem d k = true <-> In k (keys d).
Proof.
  intros d k. unfold dict_mem, keys. rewrite existsb_exists, in_map_iff. split.
  - intros (row & Hin & E). apply String.eqb_eq in E. eauto.
  - intros (row & E & Hin). exists row. split; [exact Hin|]. apply String.eqb_eq. exact E.
Qed.

Lemma set_values_keys : forall rows k v, keys (set_values rows k v) = keys rows.
Proof.
  intros rows k v. unfold set_values, keys. rewrite map_map. apply map_ext.
  intros row. destruct (String.eqb (fst row) k); reflexivity.
Qed.

Lemma set_values_get : forall rows k v k',
  dict_get (set_values rows k v) k' =
  if String.eqb k k' then option_map (fun _ => v) (dict_get rows k') else dict_get rows k'.
Proof.
  induction rows as [|[k0 v0] t IH]; intros k v k'; simpl.
  - destruct (String.eqb k k'); reflexivity.
  - destruct (String.eqb k0 k) eqn:E0; simpl.
    + apply String.eqb_eq in E0. subst k0.
      destruct (String.eqb k k') eqn:E; [reflexivity|].
      rewrite IH, E. reflexivity.
    + destruct (String.eqb k0 k') eqn:E1.
      * apply String.eqb_eq in E1. subst k0.
        destruct (String.eqb k k') eqn:E; [|reflexivity].
        apply String.eqb_eq in E. subst k. rewrite String.eqb_refl in E0. discriminate.
      * apply IH.
Qed.

Lemma upsert_row_keys : forall rows k v,
  keys (upsert_row rows k v) = if dict_mem rows k then keys rows else keys rows ++ [k].
Proof.
  intros rows k v. unfold upsert_row. destruct (dict_mem rows k).
  - apply set_values_keys.
  - unfold keys. rewrite map_app. reflexivity.
Qed.

Lemma upsert_row_nodup : forall rows k v,
  NoDup (keys rows) -> NoDup (keys (upsert_row rows k v)).
Proof.
  intros rows k v H. rewrite upsert_row_keys. destruct (dict_mem rows k) eqn:E; [exact H|].
  apply NoDup_app; [exact H|repeat constructor; intros []|].
  intros a Ha [<-|[]]. apply dict_mem_in in Ha. congruence.
Qed.

Lemma upsert_row_get : forall rows k v k',
  dict_get (upsert_row rows k v) k' = if String.eqb k k' then Some v else dict_get rows k'.
Proof.
  intros rows k v k'. unfold upsert_row. destruct (dict_mem rows k) eqn:E.
  - rewrite set_values_get. destruct (String.eqb k k') eqn:Ek; [|reflexivity].
    apply String.eqb_eq in Ek. subst k'.
    apply (dict_get_mem rows k) in E. destruct E as [v0 ->]. reflexivity.
  - rewrite dict_get_app. simpl.
    destruct (String.eqb k k') eqn:Ek.
    + apply String.eqb_eq in Ek. subst k'.
      destruct (dict_get rows k) as [v0|] eqn:Eg; [|reflexivity].
      assert (Hm : dict_mem rows k = true) by (apply dict_get_mem; eauto).
      congruence.
    + destruct (dict_get rows k'); reflexivity.
Qed.

Lemma upsert_rows_nodup : forall items rows,
  NoDup (keys rows) -> NoDup (keys (upsert_rows rows items)).
Proof.
  induction items as [|[k v] rest IH]; intros rows H; [exact H|].
  simpl. apply IH. apply upsert_row_nodup. exact H.
Qed.

(** After the loop a field of the mapping holds the value of its last
    entry there; the other fields hold what they held. *)
Lemma upsert_rows_get : forall items rows k,
  dict_get (upsert_rows rows items) k =
  match dict_get (rev items) k with
  | Some v => Some v
  | None => dict_get rows k
  end.
Proof.
  induction items as [|[k0 v0] rest IH]; intros rows k; [reflexivity|].
  simpl upsert_rows. rewrite IH. simpl rev. rewrite dict_get_app.
  destruct (dict_get (rev rest) k); [reflexivity|].
  rewrite upsert_row_get. simpl. destruct (String.eqb k0 k); reflexivity.
Qed.

Lemma count_key_nodup : forall rows k,
  NoDup (keys rows) -> In k (keys rows) -> count_key rows k = 1.
Proof.
  unfold count_key, keys. induction rows as [|[k0 v0] t IH]; intros k Hnd Hin; [destruct Hin|].
  simpl in *. inversion Hnd as [|x l Hnotin Hnd']; subst.
  destruct (String.eqb k0 k) eqn:E.
  - apply String.eqb_eq in E. subst k0. simpl. f_equal.
    assert (Hnone : forall row, In row t -> String.eqb (fst row) k = false).
    { intros row Hrow. apply String.eqb_neq. intros Heq. apply Hnotin.
      rewrite <- Heq. apply in_map. exact Hrow. }
    clear - Hnone. induction t as [|row t IHt]; [reflexivity|].
    simpl. rewrite (Hnone row (or_introl eq_refl)). apply IHt.
    intros r Hr. apply Hnone. right. exact Hr.
  - destruct Hin as [Heq|Hin]; [subst; rewrite String.eqb_refl in E; discriminate|].
    apply IH; assumption.
Qed.

Lemma upsert_rows_length : forall items rows,
  List.length rows <= List.length (upsert_rows rows items).
Proof.
  induction items as [|[k v] rest IH]; intros rows; [apply Nat.le_refl|].
  simpl. eapply Nat.le_trans; [|apply IH].
  unfold upsert_row. destruct (dict_mem rows k).
  - unfold set_values. rewrite length_map. apply Nat.le_refl.
  - rewrite length_app. simpl. lia.
Qed.

(** *** Frames *)

Lemma upsert_bid_info_items : forall df mapping,
  upsert_bid_info df mapping = upsert_items df mapping.
Proof. intros [|row df] mapping; reflexivity. Qed.

Lemma field_any_rows : forall df k, field_any df k = dict_mem (field_rows df) k.
Proof.
  intros df k. unfold field_any, dict_mem, field_rows.
  induction df as [|r t IH]; simpl; [reflexivity|]. rewrite IH. reflexivity.
Qed.

Lemma count_field_rows : forall df k, count_field df k = count_key (field_rows df) k.
Proof.
  intros df k. unfold count_field, count_key, field_rows.
  induction df as [|r t IH]; simpl; [reflexivity|].
  destruct (String.eqb (fst (snd r)) k); simpl; rewrite IH; reflexivity.
Qed.

Lemma loc_set_value_rows : forall df k v,
  field_rows (loc_set_value df k v) = set_values (field_rows df) k v.
Proof.
  intros df k v. unfold loc_set_value, set_values, field_rows. rewrite !map_map.
  apply map_ext. intros r. destruct (String.eqb (fst (snd r)) k); reflexivity.
Qed.

Lemma loc_set_value_labels : forall df k v,
  row_labels (loc_set_value df k v) = row_labels df.
Proof.
  intros df k v. unfold loc_set_value, row_labels. rewrite map_map.
  apply map_ext. intros r. destruct (String.eqb (fst (snd r)) k); reflexivity.
Qed.

Lemma labels_below_spec : forall df,
  labels_below df = true <->
  forall label, In label (row_labels df) -> (label < Z.of_nat (List.length df))%Z.
Proof.
  intros df. unfold labels_below. rewrite forallb_forall. split.
  - intros H label Hin. apply Z.ltb_lt. apply H. exact Hin.
  - intros H label Hin. apply Z.ltb_lt. apply H. exact Hin.
Qed.

(** Under labels below the number of rows, the label of a new row is
    free, and the new row goes behind the others. *)
Lemma loc_set_row_below : forall df row,
  labels_below df = true ->
  loc_set_row df (Z.of_nat (List.length df)) row
  = Some (df ++ [(Z.of_nat (List.length df), row)]).
Proof.
  intros df row H. unfold loc_set_row, label_count.
  assert (E : filter (Z.eqb (Z.of_nat (List.length df))) (row_labels df) = []).
  { rewrite labels_below_spec in H.
    induction (row_labels df) as [|label t IH]; [reflexivity|]. simpl.
    destruct (Z.eqb (Z.of_nat (List.length df)) label) eqn:E.
    - apply Z.eqb_eq in E. specialize (H label (or_introl eq_refl)). lia.
    - apply IH. intros l Hl. apply H. right. exact Hl. }
  rewrite E. reflexivity.
Qed.

Lemma combine_labels_rows : forall df : frame, combine (row_labels df) (field_rows df) = df.
Proof.
  induction df as [|[label row] t IH]; simpl; [reflexivity|]. f_equal. exact IH.
Qed.

Lemma combine_fst : forall (A B : Type) (l : list A) (l' : list B),
  List.length l = List.length l' -> map fst (combine l l') = l.
Proof.
  induction l as [|a t IH]; intros [|b t'] H; simpl in *; try discriminate; [reflexivity|].
  f_equal. apply IH. lia.
Qed.

Lemma combine_snd : forall (A B : Type) (l : list A) (l' : list B),
  List.length l = List.length l' -> map snd (combine l l') = l'.
Proof.
  induction l as [|a t IH]; intros [|b t'] H; simpl in *; try discriminate; [reflexivity|].
  f_equal. apply IH. lia.
Qed.

Lemma relabel_lengths : forall (df : frame) (rows : dict string),
  List.length df <= List.length rows ->
  List.length (row_labels df
               ++ map Z.of_nat (seq (List.length df) (List.length rows - List.length df)))
  = List.length rows.
Proof.
  intros df rows H. unfold row_labels. rewrite length_app, !length_map, length_seq. lia.
Qed.

Lemma relabel_rows : forall df rows,
  List.length df <= List.length rows -> field_rows (relabel df rows) = rows.
Proof.
  intros df rows H. apply combine_snd. apply relabel_lengths. exact H.
Qed.

Lemma relabel_labels : forall df rows,
  List.length df <= List.length rows ->
  row_labels (relabel df rows)
  = row_labels df ++ map Z.of_nat (seq (List.length df) (List.length rows - List.length df)).
Proof.
  intros df rows H. apply combine_fst. apply relabel_lengths. exact H.
Qed.

Lemma relabel_length : forall df rows,
  List.length df <= List.length rows -> List.length (relabel df rows) = List.length rows.
Proof.
  intros df rows H. rewrite <- (relabel_rows df rows H) at 2.
  unfold field_rows. rewrite length_map. reflexivity.
Qed.

Lemma relabel_same : forall df, relabel df (field_rows df) = df.
Proof.
  intros df. unfold relabel.
  replace (List.length (field_rows df) - List.length df) with 0
    by (unfold field_rows; rewrite length_map; lia).
  simpl. rewrite app_nil_r. apply combine_labels_rows.
Qed.

Lemma relabel_below : forall df rows,
  labels_below df = true ->
  List.length df <= List.length rows ->
  labels_below (relabel df rows) = true.
Proof.
  intros df rows Hb Hlen. apply labels_below_spec. intros label Hin.
  rewrite relabel_length by exact Hlen. rewrite relabel_labels in Hin by exact Hlen.
  apply in_app_or in Hin. destruct Hin as [Hin|Hin].
  - rewrite labels_below_spec in Hb. specialize (Hb label Hin). lia.
  - apply in_map_iff in Hin. destruct Hin as (i & <- & Hi). apply in_seq in Hi. lia.
Qed.

(** Relabelling depends on the labels and the number of rows only. *)
Lemma relabel_ext : forall df1 df2 rows,
  row_labels df1 = row_labels df2 -> relabel df1 rows = relabel df2 rows.
Proof.
  intros df1 df2 rows H. unfold relabel. rewrite H.
  replace (List.length df1) with (List.length df2); [reflexivity|].
  rewrite <- (length_map fst df1), <- (length_map fst df2).
  fold (row_labels df1). fold (row_labels df2). rewrite H. reflexivity.
Qed.

Lemma relabel_grown : forall df row rows,
  S (List.length df) <= List.length rows ->
  relabel (df ++ [(Z.of_nat (List.length df), row)]) rows = relabel df rows.
Proof.
  intros df row rows H. unfold relabel, row_labels.
  rewrite map_app, length_app. simpl. rewrite <- app_assoc. simpl.
  replace (List.length rows - List.length df) with (S (List.length rows - (List.length df + 1)))
    by lia.
  simpl. rewrite Nat.add_1_r. reflexivity.
Qed.

Lemma relabel_twice : forall df rows1 rows2,
  List.length df <= List.length rows1 ->
  List.length rows1 <= List.length rows2 ->
  relabel (relabel df rows1) rows2 = relabel df rows2.
Proof.
  intros df rows1 rows2 H1 H2. unfold relabel at 1.
  rewrite relabel_labels, relabel_length by exact H1. unfold relabel.
  rewrite <- app_assoc, <- map_app. do 3 f_equal.
  replace (List.length rows2 - List.length df)
    with ((List.length rows1 - List.length df) + (List.length rows2 - List.length rows1))
    by lia.
  rewrite seq_app. do 2 f_equal. lia.
Qed.

Lemma labels_below_grown : forall df row,
  labels_below df = true ->
  labels_below (df ++ [(Z.of_nat (List.length df), row)]) = true.
Proof.
  intros df row H. rewrite labels_below_spec in *. intros label Hin.
  unfold row_labels in Hin. rewrite map_app in Hin. rewrite length_app, Nat2Z.inj_add.
  change (Z.of_nat (List.length [(Z.of_nat (List.length df), row)])) with 1%Z.
  apply in_app_or in Hin. destruct Hin as [Hin|[<-|[]]].
  - specialize (H label Hin). lia.
  - simpl. lia.
Qed.

Lemma labels_below_set : forall df k v,
  labels_below df = true -> labels_below (loc_set_value df k v) = true.
Proof.
  intros df k v H. unfold labels_below in *. rewrite loc_set_value_labels.
  unfold loc_set_value. rewrite length_map. exact H.
Qed.

(** Under labels below the number of rows the upsert returns a frame: the
    labels there were, continued by the next numbers, over the columns
    that [upsert_rows] gives. *)
Lemma upsert_items_below : forall items df,
  labels_below df = true ->
  upsert_items df items = Some (relabel df (upsert_rows (field_rows df) items)).
Proof.
  induction items as [|[k v] rest IH]; intros df Hb.
  - simpl. rewrite relabel_same. reflexivity.
  - simpl. unfold upsert_row. rewrite field_any_rows.
    destruct (dict_mem (field_rows df) k) eqn:Em.
    + rewrite (IH _ (labels_below_set df k v Hb)), loc_set_value_rows. f_equal.
      apply relabel_ext. apply loc_set_value_labels.
    + rewrite (loc_set_row_below df (k, v) Hb).
      rewrite (IH _ (labels_below_grown df (k, v) Hb)).
      unfold field_rows at 1. rewrite map_app. simpl. fold (field_rows df). f_equal.
      apply relabel_grown.
      eapply Nat.le_trans; [|apply upsert_rows_length].
      rewrite length_app. unfold field_rows. rewrite length_map. simpl. lia.
Qed.

Lemma upsert_below_length : forall df items,
  List.length df <= List.length (upsert_rows (field_rows df) items).
Proof.
  intros df items. eapply Nat.le_trans; [|apply upsert_rows_length].
  unfold field_rows. rewrite length_map. apply Nat.le_refl.
Qed.

(** The BID_INFO sheet of a run has unique field names under labels below
    its number of rows. *)
Lemma bid_info_sheet_unique : forall (P : PyLib) (main_pdfs : list pdf) (r : rules) (df : frame),
  bid_info_sheet main_pdfs r = Ok (Some df) ->
  NoDup (keys (field_rows df)) /\ labels_below df = true.
Proof.
  intros P main_pdfs r df H. unfold bid_info_sheet in H.
  destruct (bid_info_values (flat_map read_pdf_text_with_pages main_pdfs) r) as [vals|e];
    simpl in H; [|discriminate].
  rewrite upsert_bid_info_items, upsert_items_below in H by reflexivity.
  injection H as <-. split.
  - rewrite relabel_rows by apply upsert_below_length.
    apply upsert_rows_nodup. constructor.
  - apply relabel_below; [reflexivity|apply upsert_below_length].
Qed.

Lemma upsert_below_facts : forall df items,
  labels_below df = true ->
  exists df',
    upsert_bid_info df items = Some df' /\
    field_rows df' = upsert_rows (field_rows df) items /\
    labels_below df' = true /\
    row_labels df'
    = row_labels df ++ map Z.of_nat (seq (List.length df) (List.length df' - List.length df)) /\
    List.length df <= List.length df'.
Proof.
  intros df items Hb. pose proof (upsert_below_length df items) as Hlen.
  exists (relabel df (upsert_rows (field_rows df) items)).
  rewrite upsert_bid_info_items, (upsert_items_below items df Hb).
  rewrite (relabel_rows _ _ Hlen), (relabel_labels _ _ Hlen), (relabel_length _ _ Hlen).
  repeat split; [apply relabel_below; assumption|exact Hlen].
Qed.

(** C7, as the claim states it, fails on a table that already has a row
    under the label that the upsert gives a new row, the number of rows:
    here the labels are 5 and 2.  The field EMD is not in the table; its
    upsert adds no row but overwrites the row of Authority, and the
    upsert of a second new field overwrites EMD in turn, so that after
    upserting both the table has no row for EMD. *)
Lemma upsert_overwrites_counterexample :
  field_any [(5, ("TenderNo", "RfS-12")); (2, ("Authority", "SECI"))]%Z "EMD" = false /\
  upsert_bid_info [(5, ("TenderNo", "RfS-12")); (2, ("Authority", "SECI"))]%Z
                  [("EMD", "2 Cr")]
  = Some [(5, ("TenderNo", "RfS-12")); (2, ("EMD", "2 Cr"))]%Z /\
  upsert_bid_info [(5, ("TenderNo", "RfS-12")); (2, ("Authority", "SECI"))]%Z
                  [("EMD", "2 Cr"); ("Capacity", "250 MW")]
  = Some [(5, ("TenderNo", "RfS-12")); (2, ("Capacity", "250 MW"))]%Z.
Proof. repeat split; reflexivity. Qed.

(** C7, amended.  On a table whose field names are unique and whose row
    labels are all below its number of rows (the default labels are), the
    upsert returns a table of the same kind.  A field of the mapping that
    the table has keeps its row, under its label, and takes the new
    value; one that the table lacks gets a new last row, under the next
    label; the other fields keep their values.  After the whole mapping
    each of its fields holds the value of its last entry in exactly one
    row, and upserting one field twice leaves exactly one row for it,
    holding the second value. *)
Theorem upsert_keeps_fields_unique : forall (df : frame) (mapping : dict string),
  NoDup (keys (field_rows df)) ->
  labels_below df = true ->
  (exists df',
      upsert_bid_info df mapping = Some df' /\
      NoDup (keys (field_rows df')) /\
      labels_below df' = true /\
      (forall k v,
          dict_get (rev mapping) k = Some v ->
          dict_get (field_rows df') k = Some v /\ count_field df' k = 1)) /\
  (forall k v,
      field_any df k = true ->
      exists df',
        upsert_bid_info df [(k, v)] = Some df' /\
        row_labels df' = row_labels df /\
        keys (field_rows df') = keys (field_rows df) /\
        dict_get (field_rows df') k = Some v) /\
  (forall k v,
      field_any df k = false ->
      upsert_bid_info df [(k, v)] = Some (df ++ [(Z.of_nat (List.length df), (k, v))])) /\
  (forall k v k',
      k' <> k ->
      exists df',
        upsert_bid_info df [(k, v)] = Some df' /\
        dict_get (field_rows df') k' = dict_get (field_rows df) k') /\
  (forall k v1 v2,
      exists df1 df2,
        upsert_bid_info df [(k, v1)] = Some df1 /\
        upsert_bid_info df1 [(k, v2)] = Some df2 /\
        count_field df2 k = 1 /\
        dict_get (field_rows df2) k = Some v2).
Proof.
  intros df mapping Hnd Hb.
  assert (Hcount : forall rows k v,
             NoDup (keys rows) -> dict_get rows k = Some v -> count_key rows k = 1).
  { intros rows k v Hrows Hget. apply count_key_nodup; [exact Hrows|].
    apply dict_mem_in. apply dict_get_mem. eauto. }
  split; [|split; [|split; [|split]]].
  - destruct (upsert_below_facts df mapping Hb) as (df' & E & Hrows & Hb' & _).
    assert (Hnd' : NoDup (keys (field_rows df'))).
    { rewrite Hrows. apply upsert_rows_nodup. exact Hnd. }
    exists df'. split; [exact E|]. split; [exact Hnd'|]. split; [exact Hb'|].
    intros k v Hlast.
    assert (Hget : dict_get (field_rows df') k = Some v).
    { rewrite Hrows, upsert_rows_get, Hlast. reflexivity. }
    split; [exact Hget|]. rewrite count_field_rows. apply (Hcount _ k v Hnd' Hget).
  - intros k v Hk. exists (loc_set_value df k v).
    split; [rewrite upsert_bid_info_items; simpl; rewrite Hk; reflexivity|].
    split; [apply loc_set_value_labels|].
    rewrite loc_set_value_rows. split; [apply set_values_keys|].
    rewrite set_values_get, String.eqb_refl.
    rewrite field_any_rows in Hk. apply dict_get_mem in Hk. destruct Hk as [v0 ->].
    reflexivity.
  - intros k v Hk. rewrite upsert_bid_info_items. simpl. rewrite Hk.
    rewrite (loc_set_row_below df (k, v) Hb). reflexivity.
  - intros k v k' Hne.
    destruct (upsert_below_facts df [(k, v)] Hb) as (df' & E & Hrows & _).
    exists df'. split; [exact E|]. rewrite Hrows. simpl. rewrite upsert_row_get.
    destruct (String.eqb k k') eqn:Ek; [|reflexivity].
    apply String.eqb_eq in Ek. congruence.
  - intros k v1 v2.
    destruct (upsert_below_facts df [(k, v1)] Hb) as (df1 & E1 & Hrows1 & Hb1 & _).
    destruct (upsert_below_facts df1 [(k, v2)] Hb1) as (df2 & E2 & Hrows2 & _).
    exists df1, df2. split; [exact E1|]. split; [exact E2|].
    rewrite Hrows1 in Hrows2. simpl in Hrows2.
    assert (Hget : dict_get (field_rows df2) k = Some v2).
    { rewrite Hrows2, upsert_row_get, String.eqb_refl. reflexivity. }
    split; [|exact Hget]. rewrite count_field_rows. apply (Hcount _ k v2); [|exact Hget].
    rewrite Hrows2. apply upsert_row_nodup. apply upsert_row_nodup. exact Hnd.
Qed.

Lemma upsert_keeps_fields_unique_witness :
  NoDup (keys (field_rows [(0, ("TenderNo", "RfS-12")); (1, ("Authority", "SECI"))]%Z)) /\
  labels_below [(0, ("TenderNo", "RfS-12")); (1, ("Authority", "SECI"))]%Z = true /\
  exists df',
    upsert_bid_info [(0, ("TenderNo", "RfS-12")); (1, ("Authority", "SECI"))]%Z
                    [("Authority", "NTPC"); ("Capacity", "300 MW")]
    = Some df' /\
    NoDup (keys (field_rows df')) /\
    dict_get (field_rows df') "Capacity" = Some "300 MW" /\
    count_field df' "Capacity" = 1.
Proof.
  assert (Hnd : NoDup (keys (field_rows [(0, ("TenderNo", "RfS-12"));
                                         (1, ("Authority", "SECI"))]%Z))).
  { simpl. repeat constructor; simpl; intuition discriminate. }
  split; [exact Hnd|]. split; [reflexivity|].
  destruct (proj1 (@upsert_keeps_fields_unique
                     [(0, ("TenderNo", "RfS-12")); (1, ("Authority", "SECI"))]%Z
                     [("Authority", "NTPC"); ("Capacity", "300 MW")]
                     Hnd eq_refl))
    as (df' & E & Hnd' & _ & Hlast).
  exists df'. split; [exact E|]. split; [exact Hnd'|].
  apply (Hlast "Capacity" "300 MW"). reflexivity.
Defined.

(** The table of the witness after the upsert: Authority updated in its
    row, Capacity in a new last row under the label 2. *)
Example upsert_bid_info_tender :
  upsert_bid_info [(0, ("TenderNo", "RfS-12")); (1, ("Authority", "SECI"))]%Z
                  [("Authority", "NTPC"); ("Capacity", "300 MW")]
  = Some [(0, ("TenderNo", "RfS-12")); (1, ("Authority", "NTPC"));
          (2, ("Capacity", "300 MW"))]%Z.
Proof. reflexivity. Qed.

(** ** Amendments *)

Lemma enumerate_from_length : forall (A : Type) (l : list A) i,
  List.length (enumerate_from i l) = List.length l.
Proof.
  induction l as [|a t IH]; intros i; simpl; [reflexivity|]. rewrite IH. reflexivity.
Qed.

Lemma read_pdf_length : forall f,
  List.length (read_pdf_text_with_pages f) = List.length (pdf_pages f).
Proof.
  intros f. unfold read_pdf_text_with_pages. rewrite length_map. apply enumerate_from_length.
Qed.

(** C2, as the claim states it, fails.  A document in which none of the
    three labels occurs gets the label "Corrigendum/Addendum", not the
    empty string; and a document that contains "Addendum" and the token
    "12/05/2024" gets the label "Corrigendum" when that word comes first. *)
Lemma amendment_label_counterexample :
  (first_hit (P := Cpy.lib) (compiled_of label_pattern IGNORECASE)
             (read_pdf_text_with_pages notice_pdf) = None /\
   amendment_row (P := Cpy.lib) notice_pdf
   = Ok (mkAmendment "Corrigendum/Addendum" "notice.pdf" (Some "12/05/2024") "" 1) /\
   "Corrigendum/Addendum" <> "") /\
  amendment_row (P := Cpy.lib) corrigendum_pdf
  = Ok (mkAmendment "Corrigendum" "corr1.pdf" (Some "12/05/2024") "" 2).
Proof.
  split; [split; [|split]|].
  - vm_compute. reflexivity.
  - vm_compute. reflexivity.
  - discriminate.
  - vm_compute. reflexivity.
Qed.

(** C2, amended.  With the two patterns compiled and the first match of
    each on the document having a first group, the record of an amendment
    document carries: as type, the first occurrence of one of the three
    labels in discovery order (page by page, left to right within a
    page), as the document spells it, cleaned, or "Corrigendum/Addendum"
    when no page has one; as date, the first date-like token in the same
    order, or the empty string when there is none; the base name of the
    file; the number of its pages.  In particular, when the first label
    found reads "Addendum" and the first date-like token is "12/05/2024",
    the type is "Addendum" and the date "12/05/2024". *)
Theorem amendment_row_spec : forall (P : PyLib) (f : pdf) (rxd rxl : pattern_obj),
  re_compile date_pattern IGNORECASE = Ok rxd ->
  re_compile label_pattern IGNORECASE = Ok rxl ->
  (forall pn m, hd_error (hits_of rxd (read_pdf_text_with_pages f)) = Some (pn, m) ->
                groups m <> []) ->
  (forall pn m, hd_error (hits_of rxl (read_pdf_text_with_pages f)) = Some (pn, m) ->
                groups m <> []) ->
  exists row,
    amendment_row f = Ok row /\
    FileName row = pdf_name f /\
    Pages row = List.length (pdf_pages f) /\
    AmendmentNotes row = "" /\
    AmendmentType row =
      match hd_error (hits_of rxl (read_pdf_text_with_pages f)) with
      | Some (_, m) => clean_text (hd None (groups m))
      | None => "Corrigendum/Addendum"
      end /\
    Date row =
      match hd_error (hits_of rxd (read_pdf_text_with_pages f)) with
      | Some (_, m) => hd None (groups m)
      | None => Some ""
      end /\
    (forall pn1 m1 rest1 pn2 m2 rest2,
        hd_error (hits_of rxl (read_pdf_text_with_pages f)) = Some (pn1, m1) ->
        groups m1 = Some "Addendum" :: rest1 ->
        hd_error (hits_of rxd (read_pdf_text_with_pages f)) = Some (pn2, m2) ->
        groups m2 = Some "12/05/2024" :: rest2 ->
        AmendmentType row = "Addendum" /\ Date row = Some "12/05/2024").
Proof.
  intros P f rxd rxl Hd Hl Hgd Hgl.
  set (pages := read_pdf_text_with_pages f) in *.
  assert (Hgroup1 : forall m, groups m <> [] -> group m 1 = Ok (hd None (groups m))).
  { intros m Hm. unfold group. simpl. destruct (groups m); [congruence|reflexivity]. }
  unfold amendment_row. fold pages. unfold find_first. rewrite Hd, Hl. cbn [bind].
  rewrite !first_hit_head.
  destruct (hd_error (hits_of rxd pages)) as [[pnd md]|] eqn:Ed;
    destruct (hd_error (hits_of rxl pages)) as [[pnl ml]|] eqn:El;
    try rewrite (Hgroup1 md (Hgd pnd md eq_refl));
    try rewrite (Hgroup1 ml (Hgl pnl ml eq_refl));
    cbn [bind]; (eexists; split; [reflexivity|]); cbn;
    (split; [reflexivity|]); (split; [apply read_pdf_length|]);
    (split; [reflexivity|]); (split; [reflexivity|]); (split; [reflexivity|]);
    intros pn1 m1 rest1 pn2 m2 rest2 H1 G1 H2 G2; try discriminate.
  inversion H1; inversion H2; subst. rewrite G1, G2. split; reflexivity.
Qed.

(** The witness has a label and a date on each of its last two pages; the
    record takes those of the earlier page. *)
Lemma amendment_row_spec_witness :
  exists row,
    amendment_row (P := Cpy.lib) revised_addendum_pdf = Ok row /\
    AmendmentType row = "Addendum" /\
    Date row = Some "12/05/2024" /\
    FileName row = "addendum3.pdf" /\
    Pages row = 3.
Proof.
  assert (Hd : re_compile (PyLib := Cpy.lib) date_pattern IGNORECASE
               = Ok (compiled_of date_pattern IGNORECASE)) by (vm_compute; reflexivity).
  assert (Hl : re_compile (PyLib := Cpy.lib) label_pattern IGNORECASE
               = Ok (compiled_of label_pattern IGNORECASE)) by (vm_compute; reflexivity).
  destruct (@amendment_row_spec Cpy.lib revised_addendum_pdf _ _ Hd Hl)
    as (row & Erow & Hname & Hpages & _ & _ & _ & Hparticular).
  - intros pn m H. vm_compute in H. inversion H. discriminate.
  - intros pn m H. vm_compute in H. inversion H. discriminate.
  - exists row. split; [exact Erow|].
    destruct (Hparticular 2%Z (mkMatch "Addendum" [Some "Addendum"] []) []
                          2%Z (mkMatch "12/05/2024" [Some "12/05/2024"] []) [])
      as [Htype Hdate]; try (vm_compute; reflexivity).
    repeat split; assumption.
Defined.

(** The matches on the witness document, in discovery order. *)
Example revised_addendum_hits :
  map (fun hit => (fst hit, group0 (snd hit)))
      (hits_of (P := Cpy.lib) (compiled_of label_pattern IGNORECASE)
               (read_pdf_text_with_pages revised_addendum_pdf))
  = [(2%Z, "Addendum"); (3%Z, "Corrigendum")] /\
  map (fun hit => (fst hit, group0 (snd hit)))
      (hits_of (P := Cpy.lib) (compiled_of date_pattern IGNORECASE)
               (read_pdf_text_with_pages revised_addendum_pdf))
  = [(2%Z, "12/05/2024"); (3%Z, "03/04/2024")].
Proof. split; vm_compute; reflexivity. Qed.

(** With the executable runtime the two patterns compile and their matches
    have one group, so every amendment file gives a record. *)
Lemma amendment_row_returns : forall (f : pdf),
  exists row, amendment_row (P := Cpy.lib) f = Ok row.
Proof.
  intros f. unfold amendment_row, find_first.
  change (re_compile (PyLib := Cpy.lib) date_pattern IGNORECASE)
    with (Cpy.compile date_pattern IGNORECASE).
  change (re_compile (PyLib := Cpy.lib) label_pattern IGNORECASE)
    with (Cpy.compile label_pattern IGNORECASE).
  assert (Hd : Cpy.compile date_pattern IGNORECASE = Ok (compiled_of date_pattern IGNORECASE))
    by (vm_compute; reflexivity).
  assert (Hl : Cpy.compile label_pattern IGNORECASE = Ok (compiled_of label_pattern IGNORECASE))
    by (vm_compute; reflexivity).
  assert (Hgroup1 : forall c pages pn m,
             first_hit (P := Cpy.lib) c pages = Some (pn, m) ->
             Cpy.c_ngroups c = 1 ->
             exists g, group m 1 = Ok g).
  { intros c pages pn m Hhit Hn. apply first_hit_groups in Hhit. rewrite Hn in Hhit.
    unfold group. simpl. destruct (groups m) as [|g rest]; [discriminate|]. eauto. }
  rewrite Hd, Hl. cbn [bind].
  destruct (first_hit (P := Cpy.lib) (compiled_of date_pattern IGNORECASE)
                      (read_pdf_text_with_pages f))
    as [[pnd md]|] eqn:Ed;
    destruct (first_hit (P := Cpy.lib) (compiled_of label_pattern IGNORECASE)
                        (read_pdf_text_with_pages f))
      as [[pnl ml]|] eqn:El.
  - destruct (Hgroup1 _ _ _ _ Ed eq_refl) as [gd ->].
    destruct (Hgroup1 _ _ _ _ El eq_refl) as [gl ->]. cbn [bind]. eauto.
  - destruct (Hgroup1 _ _ _ _ Ed eq_refl) as [gd ->]. cbn [bind]. eauto.
  - destruct (Hgroup1 _ _ _ _ El eq_refl) as [gl ->]. cbn [bind]. eauto.
  - cbn [bind]. eauto.
Qed.

(** * Further properties *)

(** ** clean_text *)

Lemma collapse_spaced : forall l in_run, spaced in_run (collapse_ws in_run l) = true.
Proof.
  induction l as [|c t IH]; intros in_run; simpl; [reflexivity|].
  destruct (is_space c) eqn:E.
  - destruct in_run; [apply IH|]. simpl. rewrite IH. reflexivity.
  - simpl. rewrite E. apply IH.
Qed.

Lemma spaced_weaken : forall l, spaced true l = true -> spaced false l = true.
Proof.
  intros [|c t]; simpl; [reflexivity|]. destruct (is_space c); [discriminate|auto].
Qed.

Lemma spaced_app_l : forall a b p, spaced p (a ++ b) = true -> spaced p a = true.
Proof.
  induction a as [|c t IH]; intros b p H; simpl in *; [reflexivity|].
  destruct (is_space c).
  - apply andb_true_iff in H. destruct H as [H1 H2]. rewrite H1. simpl. apply (IH b). exact H2.
  - apply (IH b). exact H.
Qed.

Lemma spaced_app_r : forall a b p, spaced p (a ++ b) = true -> spaced false b = true.
Proof.
  induction a as [|c t IH]; intros b p H; simpl in *.
  - destruct p; [apply spaced_weaken; exact H|exact H].
  - destruct (is_space c).
    + apply andb_true_iff in H. destruct H as [_ H2]. apply (IH b true). exact H2.
    + apply (IH b false). exact H.
Qed.

Lemma lstrip_split : forall l,
  exists pre, l = pre ++ lstrip l /\ forallb is_space pre = true.
Proof.
  induction l as [|c t IH]; simpl.
  - exists []. auto.
  - destruct (is_space c) eqn:E.
    + destruct IH as (pre & Hl & Hpre). exists (c :: pre). simpl. rewrite E, Hpre.
      split; [f_equal; exact Hl|reflexivity].
    + exists []. auto.
Qed.

Lemma lstrip_starts_clean : forall l, starts_clean (lstrip l) = true.
Proof.
  induction l as [|c t IH]; simpl; [reflexivity|].
  destruct (is_space c) eqn:E; [exact IH|]. simpl. rewrite E. reflexivity.
Qed.

Lemma lstrip_clean : forall l, starts_clean l = true -> lstrip l = l.
Proof.
  intros [|c t] H; simpl in *; [reflexivity|].
  destruct (is_space c); [discriminate|reflexivity].
Qed.

(** [strip] cuts whitespace off both ends and nothing else. *)
Lemma strip_split : forall l,
  exists a b, l = a ++ strip l ++ b /\
              forallb is_space a = true /\ forallb is_space b = true.
Proof.
  intros l. unfold strip.
  destruct (lstrip_split l) as (a & Hl & Ha).
  destruct (lstrip_split (rev (lstrip l))) as (b & Hr & Hb).
  exists a, (rev b). split; [|split].
  - rewrite <- rev_app_distr, <- Hr, rev_involutive. exact Hl.
  - exact Ha.
  - rewrite forallb_forall in *. intros x Hx. apply Hb. apply in_rev. exact Hx.
Qed.

Lemma starts_clean_app : forall a b,
  a <> [] -> starts_clean (a ++ b) = starts_clean a.
Proof. intros [|c t] b H; [congruence|reflexivity]. Qed.

Lemma strip_ends_clean : forall l,
  starts_clean (strip l) = true /\ starts_clean (rev (strip l)) = true.
Proof.
  intros l. unfold strip. split.
  - destruct (lstrip_split (rev (lstrip l))) as (b & Hr & Hb).
    destruct (lstrip (rev (lstrip l))) as [|y ys] eqn:E; [reflexivity|].
    assert (Hx : lstrip l = rev (y :: ys) ++ rev b).
    { rewrite <- rev_app_distr, <- Hr, rev_involutive. reflexivity. }
    rewrite <- (@starts_clean_app (rev (y :: ys)) (rev b)).
    + rewrite <- Hx. apply lstrip_starts_clean.
    + simpl. intros Hnil. apply app_eq_nil in Hnil. destruct Hnil; discriminate.
  - rewrite rev_involutive. apply lstrip_starts_clean.
Qed.

Lemma strip_clean : forall l,
  starts_clean l = true -> starts_clean (rev l) = true -> strip l = l.
Proof.
  intros l H1 H2. unfold strip. rewrite (lstrip_clean l H1), (lstrip_clean _ H2).
  apply rev_involutive.
Qed.

Lemma collapse_spaced_id : forall l in_run, spaced in_run l = true -> collapse_ws in_run l = l.
Proof.
  induction l as [|c t IH]; intros in_run H; simpl in *; [reflexivity|].
  destruct (is_space c).
  - apply andb_true_iff in H. destruct H as [H1 H2].
    apply andb_true_iff in H1. destruct H1 as [Hrun Hc].
    destruct in_run; [discriminate|]. apply Ascii.eqb_eq in Hc. subst c.
    f_equal. apply IH. exact H2.
  - f_equal. apply IH. exact H.
Qed.

Lemma clean_text_list : forall s,
  list_ascii_of_string (clean_text (Some s))
  = strip (collapse_ws false (list_ascii_of_string s)).
Proof. intros s. simpl. apply list_ascii_of_string_of_list_ascii. Qed.

Lemma clean_text_tidy : forall s, tidy (clean_text (Some s)) = true.
Proof.
  intros s. unfold tidy. rewrite clean_text_list.
  set (w := collapse_ws false (list_ascii_of_string s)).
  destruct (strip_ends_clean w) as [H1 H2]. rewrite H1, H2.
  destruct (strip_split w) as (a & b & Hw & _ & _).
  assert (Hs : spaced false w = true) by apply collapse_spaced.
  rewrite Hw in Hs. apply spaced_app_r in Hs. apply spaced_app_l in Hs. rewrite Hs. reflexivity.
Qed.

Lemma tidy_fixed : forall s, tidy s = true -> clean_text (Some s) = s.
Proof.
  intros s H. unfold tidy in H.
  apply andb_true_iff in H. destruct H as [H H3].
  apply andb_true_iff in H. destruct H as [H1 H2].
  simpl. rewrite (collapse_spaced_id _ _ H1), (strip_clean _ H2 H3).
  apply string_of_list_ascii_of_string.
Qed.

(** X1.  The text that [clean_text] returns has no whitespace at either
    end, and every whitespace character in it is a single space standing
    between two characters that are not whitespace. *)
Theorem clean_text_shape : forall (s : string) (pre post : list ascii) (c : ascii),
  list_ascii_of_string (clean_text (Some s)) = pre ++ c :: post ->
  is_space c = true ->
  c = " "%char /\
  (exists pre' a, pre = pre' ++ [a] /\ is_space a = false) /\
  (exists b post', post = b :: post' /\ is_space b = false).
Proof.
  intros s pre post c Hsplit Hc.
  pose proof (clean_text_tidy s) as Ht. unfold tidy in Ht. rewrite Hsplit in Ht.
  apply andb_true_iff in Ht. destruct Ht as [Ht Hlast].
  apply andb_true_iff in Ht. destruct Ht as [Hsp Hfirst].
  assert (Hpre : exists pre' a, pre = pre' ++ [a]).
  { destruct pre as [|x xs]; [simpl in Hfirst; rewrite Hc in Hfirst; discriminate|].
    destruct (exists_last (l := x :: xs)) as (pre' & a & E); [discriminate|]. eauto. }
  destruct Hpre as (pre' & a & ->).
  assert (Hpost : exists b post', post = b :: post').
  { destruct post as [|b post']; [|eauto].
    rewrite rev_app_distr in Hlast. simpl in Hlast. rewrite Hc in Hlast. discriminate. }
  destruct Hpost as (b & post' & ->).
  rewrite <- app_assoc in Hsp. apply spaced_app_r in Hsp. simpl in Hsp.
  destruct (is_space a) eqn:Ea.
  - rewrite Hc in Hsp. simpl in Hsp. rewrite andb_false_r in Hsp. discriminate.
  - rewrite Hc in Hsp. simpl in Hsp.
    apply andb_true_iff in Hsp. destruct Hsp as [Heq Hrest].
    apply Ascii.eqb_eq in Heq.
    destruct (is_space b) eqn:Eb; [discriminate|].
    split; [exact Heq|]. split; eauto.
Qed.

Lemma clean_text_shape_witness :
  " "%char = " "%char /\
  (exists pre' a, list_ascii_of_string "250" = pre' ++ [a] /\ is_space a = false) /\
  (exists b post', list_ascii_of_string "MW" = b :: post' /\ is_space b = false).
Proof.
  apply (clean_text_shape (String (ascii_of_N 9) " 250 " ++ String (ascii_of_N 10) "  MW ")
                          (list_ascii_of_string "250") (list_ascii_of_string "MW") " "%char);
    reflexivity.
Defined.

(** X2.  [clean_text] is idempotent, and the texts it leaves unchanged are
    exactly the texts in cleaned form. *)
Theorem clean_text_idempotent : forall (s : string),
  clean_text (Some (clean_text (Some s))) = clean_text (Some s) /\
  (clean_text (Some s) = s <-> tidy s = true).
Proof.
  intros s. split.
  - apply tidy_fixed. apply clean_text_tidy.
  - split; [|apply tidy_fixed]. intros H. rewrite <- H. apply clean_text_tidy.
Qed.

Lemma filter_visible_lstrip : forall l,
  filter (fun c => negb (is_space c)) (lstrip l) = filter (fun c => negb (is_space c)) l.
Proof.
  induction l as [|c t IH]; simpl; [reflexivity|].
  destruct (is_space c) eqn:E; simpl; [exact IH|]. rewrite E. reflexivity.
Qed.

Lemma filter_visible_collapse : forall l in_run,
  filter (fun c => negb (is_space c)) (collapse_ws in_run l)
  = filter (fun c => negb (is_space c)) l.
Proof.
  induction l as [|c t IH]; intros in_run; simpl; [reflexivity|].
  destruct (is_space c) eqn:E; simpl.
  - destruct in_run; [apply IH|]. simpl. apply IH.
  - rewrite E. simpl. f_equal. apply IH.
Qed.

(** X3.  [clean_text] only touches whitespace: the other characters of
    the text come out all, unchanged and in their order. *)
Theorem clean_text_keeps_visible : forall (s : string),
  visible (clean_text (Some s)) = visible s.
Proof.
  intros s. unfold visible. rewrite clean_text_list. unfold strip.
  rewrite filter_rev, filter_visible_lstrip, filter_rev, rev_involutive,
    filter_visible_lstrip.
  apply filter_visible_collapse.
Qed.

(** ** Reading and scanning pages *)

Lemma enumerate_from_fst : forall (A : Type) (l : list A) i,
  map fst (enumerate_from i l) = seq i (List.length l).
Proof.
  induction l as [|a t IH]; intros i; simpl; [reflexivity|]. rewrite IH. reflexivity.
Qed.

Lemma enumerate_from_snd : forall (A : Type) (l : list A) i,
  map snd (enumerate_from i l) = l.
Proof.
  induction l as [|a t IH]; intros i; simpl; [reflexivity|]. rewrite IH. reflexivity.
Qed.

Lemma read_pdf_numbers : forall f,
  map fst (read_pdf_text_with_pages f)
  = map Z.of_nat (seq 1 (List.length (pdf_pages f))).
Proof.
  intros f. unfold read_pdf_text_with_pages. rewrite map_map. simpl.
  rewrite <- seq_shift, map_map, <- enumerate_from_fst, map_map.
  apply map_ext. intros [i t]. simpl. lia.
Qed.

(** X4.  The reader numbers the pages of a file 1, 2, ... without gaps and
    keeps a page whose text could not be extracted, with the empty text;
    in the page list that [main] scans the numbering starts again at 1
    with every file. *)
Theorem read_pdf_numbering : forall (f : pdf) (main_pdfs : list pdf),
  map fst (read_pdf_text_with_pages f)
    = map Z.of_nat (seq 1 (List.length (pdf_pages f))) /\
  map snd (read_pdf_text_with_pages f) = map (fun t => get t "") (pdf_pages f) /\
  map fst (pages_simple main_pdfs)
    = flat_map (fun g => map Z.of_nat (seq 1 (List.length (pdf_pages g)))) main_pdfs.
Proof.
  intros f main_pdfs. split; [apply read_pdf_numbers|]. split.
  - unfold read_pdf_text_with_pages. rewrite map_map. simpl.
    rewrite <- (enumerate_from_snd (pdf_pages f) 0) at 2. rewrite map_map. reflexivity.
  - unfold pages_simple. induction main_pdfs as [|g rest IH]; simpl; [reflexivity|].
    rewrite map_app, read_pdf_numbers. f_equal. exact IH.
Qed.

Section ScanFacts.
Context {P : PyLib}.

Lemma hits_of_app : forall rx pages1 pages2,
  hits_of rx (pages1 ++ pages2) = hits_of rx pages1 ++ hits_of rx pages2.
Proof. intros. unfold hits_of. apply flat_map_app. Qed.

Lemma first_hit_app : forall rx pages1 pages2,
  first_hit rx (pages1 ++ pages2) =
  match first_hit rx pages1 with
  | Some h => Some h
  | None => first_hit rx pages2
  end.
Proof.
  intros rx pages1 pages2. induction pages1 as [|[pn text] rest IH]; simpl; [reflexivity|].
  destruct (rx_search rx text); [reflexivity|exact IH].
Qed.

Lemma append_hits_from_empty : forall ext hits results,
  append_hits results ext hits =
  (rows <- append_hits [] ext hits ;; Ok (results ++ rows)).
Proof.
  intros ext hits. induction hits as [|[pn m] rest IH]; intros results; simpl.
  - rewrite app_nil_r. reflexivity.
  - destruct (render_value_returns (get (ext_value_expr ext) "{0}") m) as [v Ev].
    rewrite Ev. simpl.
    rewrite (IH (results ++ [row_of ext v pn])), (IH [row_of ext v pn]).
    destruct (append_hits [] ext rest) as [rows|e]; simpl; [|reflexivity].
    rewrite <- app_assoc. reflexivity.
Qed.

(** A turn of the loop does not read [results]: it appends to it what it
    would give on the empty list, or raises as it would there. *)
Lemma extract_from_empty : forall results pages ext,
  extract results pages ext =
  (rows <- extract [] pages ext ;; Ok (results ++ rows)).
Proof.
  intros results pages ext. unfold extract.
  destruct (compile_flags (get (ext_flags ext) ["IGNORECASE"])) as [fl|e]; simpl;
    [|reflexivity].
  destruct (String.eqb (get (ext_mode ext) "first") "all").
  - destruct (find_all (get (ext_pattern ext) "") pages fl) as [hits|e]; simpl;
      [|reflexivity].
    apply append_hits_from_empty.
  - destruct (find_first (get (ext_pattern ext) "") pages fl) as [[[pn m]|]|e]; simpl;
      [| |reflexivity].
    + destruct (render_value (get (ext_value_expr ext) "{0}") m); reflexivity.
    + rewrite app_nil_r. reflexivity.
Qed.

Lemma run_from_empty : forall pages exts results,
  run_from results pages exts =
  (rows <- run_from [] pages exts ;; Ok (results ++ rows)).
Proof.
  intros pages exts. induction exts as [|ext rest IH]; intros results; simpl.
  - rewrite app_nil_r. reflexivity.
  - rewrite (extract_from_empty results).
    destruct (extract [] pages ext) as [rows|e]; simpl; [|reflexivity].
    rewrite (IH (results ++ rows)), (IH rows).
    destruct (run_from [] pages rest) as [rows'|e]; simpl; [|reflexivity].
    rewrite <- app_assoc. reflexivity.
Qed.

Lemma run_from_app : forall pages exts1 exts2 results,
  run_from results pages (exts1 ++ exts2) =
  (results1 <- run_from results pages exts1 ;; run_from results1 pages exts2).
Proof.
  intros pages exts1 exts2. induction exts1 as [|ext rest IH]; intros results; simpl.
  - reflexivity.
  - destruct (extract results pages ext) as [results'|e]; simpl; [apply IH|reflexivity].
Qed.

End ScanFacts.

(** X5.  What [find_first] returns is the first of the hits that
    [find_all] returns for the same pattern, pages and flags, and nothing
    when there is no hit; both raise on the same patterns. *)
Theorem find_first_is_first_of_all : forall (P : PyLib) (pattern : string)
                                            (pages : list page) (flags : Z),
  find_first pattern pages flags =
  (hits <- find_all pattern pages flags ;; Ok (hd_error hits)).
Proof.
  intros P pattern pages flags. unfold find_first, find_all.
  destruct (re_compile pattern flags) as [rx|e]; simpl; [|reflexivity].
  rewrite all_hits_spec. simpl. rewrite first_hit_head. reflexivity.
Qed.

(** X6.  Scanning the pages of several files in a row: the hits of
    [find_all] are those of the first pages followed by those of the
    later pages, and [find_first] returns its result on the first pages
    unless there is none, and then its result on the later pages. *)
Theorem scans_over_joined_pages : forall (P : PyLib) (pattern : string)
                                         (pages1 pages2 : list page) (flags : Z),
  find_all pattern (pages1 ++ pages2) flags =
    (hits1 <- find_all pattern pages1 flags ;;
     hits2 <- find_all pattern pages2 flags ;;
     Ok (hits1 ++ hits2)) /\
  find_first pattern (pages1 ++ pages2) flags =
    (first1 <- find_first pattern pages1 flags ;;
     match first1 with
     | Some hit => Ok (Some hit)
     | None => find_first pattern pages2 flags
     end).
Proof.
  intros P pattern pages1 pages2 flags. unfold find_all, find_first.
  destruct (re_compile pattern flags) as [rx|e]; simpl; [|split; reflexivity].
  split.
  - rewrite !all_hits_spec. simpl. rewrite hits_of_app. reflexivity.
  - rewrite first_hit_app. destruct (first_hit rx pages1); reflexivity.
Qed.

(** X7.  Running two lists of directives one after the other gives the
    rows of the first list followed by the rows of the second; when a
    directive of either list raises, the whole run raises and no row is
    returned. *)
Theorem run_extractors_app : forall (P : PyLib) (pages : list page)
                                    (exts1 exts2 : list extractor),
  run_extractors pages (exts1 ++ exts2) =
  (rows1 <- run_extractors pages exts1 ;;
   rows2 <- run_extractors pages exts2 ;;
   Ok (rows1 ++ rows2)).
Proof.
  intros P pages exts1 exts2. unfold run_extractors. rewrite run_from_app.
  destruct (run_from [] pages exts1) as [rows1|e]; simpl; [|reflexivity].
  apply run_from_empty.
Qed.

(** ** Flags and rendering *)

Lemma fold_lor_testbit : forall (g : string -> Z) (l : list string) (a : Z) (i : Z),
  Z.testbit (fold_left (fun acc n => Z.lor acc (g n)) l a) i
  = Z.testbit a i || existsb (fun n => Z.testbit (g n) i) l.
Proof.
  intros g l. induction l as [|n t IH]; intros a i; simpl.
  - rewrite orb_false_r. reflexivity.
  - rewrite IH, Z.lor_spec, orb_assoc. reflexivity.
Qed.

Lemma existsb_same_members : forall (A : Type) (f : A -> bool) (l l' : list A),
  (forall x, In x l <-> In x l') -> existsb f l = existsb f l'.
Proof.
  intros A f l l' H. apply eq_true_iff_eq. rewrite !existsb_exists.
  split; intros (x & Hin & Hf); exists x; split; try exact Hf; apply H; exact Hin.
Qed.

(** X8.  The flags of a directive depend only on which names its flag
    list holds, not on their order or on repetitions, as long as no name
    is bound by [re] to something that is not an integer. *)
Theorem compile_flags_as_set : forall (P : PyLib) (names names' : list string),
  (forall n, In n names <-> In n names') ->
  (forall n, In n names -> re_getattr n <> Some PyOther) ->
  compile_flags names = compile_flags names'.
Proof.
  intros P names names' Hsame Hint. unfold compile_flags.
  rewrite (or_flags_known names 0 Hint).
  rewrite (or_flags_known names' 0); [|intros n Hn; apply Hint, Hsame; exact Hn].
  f_equal. apply Z.bits_inj. intros i. rewrite !fold_lor_testbit.
  f_equal. apply existsb_same_members. exact Hsame.
Qed.

Lemma compile_flags_as_set_witness :
  compile_flags (P := Cpy.lib) ["IGNORECASE"; "DOTALL"; "IGNORECASE"; "NO_SUCH_FLAG"]
  = compile_flags (P := Cpy.lib) ["NO_SUCH_FLAG"; "DOTALL"; "IGNORECASE"].
Proof.
  apply compile_flags_as_set.
  - intros n. simpl. intuition.
  - intros n [<-|[<-|[<-|[<-|[]]]]]; vm_compute; discriminate.
Defined.

(** X9.  [render_value] never raises, whatever the template.  For a match
    with a capturing group it returns the cleaned text of group 1; for a
    match of a pattern without any group it returns the template resolved
    against no arguments, or the cleaned text of the whole match when
    that resolution raises. *)
Theorem render_value_cases : forall (P : PyLib) (value_expr : string) (m : Match),
  render_value value_expr m =
  Ok (match groups m, groupindex m with
      | g :: _, _ => clean_text g
      | [], [] =>
          match str_format value_expr [] with
          | Ok s => s
          | Raise _ => clean_text (Some (group0 m))
          end
      | [], _ :: _ => clean_text (Some (group0 m))
      end).
Proof.
  intros P value_expr m.
  destruct (groups m) as [|g rest] eqn:Eg.
  - destruct (groupindex m) as [|ni names] eqn:En.
    + unfold render_value, fmt_dict_of, groupdict. rewrite Eg, En. simpl.
      destruct (str_format value_expr []) as [s|e]; [reflexivity|].
      rewrite render_fallback_returns, Eg. reflexivity.
    + rewrite render_value_fmt_nonempty.
      * rewrite render_fallback_returns, Eg. reflexivity.
      * unfold fmt_dict_of.
        apply (fold_dict_set_nonempty (fun kv : string * option string => fst kv)
                                      (fun kv => clean_text (snd kv))).
        right. unfold groupdict. rewrite En. discriminate.
  - rewrite render_value_with_groups; [|rewrite Eg; discriminate].
    rewrite render_fallback_returns, Eg. reflexivity.
Qed.

(** ** Header values and the BID_INFO sheet *)

Lemma dict_set_keys : forall (d : dict string) k v,
  keys (dict_set d k v) = if dict_mem d k then keys d else keys d ++ [k].
Proof.
  unfold keys. induction d as [|[k0 v0] t IH]; intros k v; simpl; [reflexivity|].
  destruct (String.eqb k0 k) eqn:E; simpl; [reflexivity|].
  rewrite IH. destruct (dict_mem t k); reflexivity.
Qed.

Lemma dict_setdefault_keys : forall (d : dict string) k v,
  keys (dict_setdefault d k v) = if dict_mem d k then keys d else keys d ++ [k].
Proof.
  intros d k v. unfold dict_setdefault, keys. destruct (dict_mem d k); [reflexivity|].
  rewrite map_app. reflexivity.
Qed.

Lemma keys_step_nodup : forall (ks : list string) (present : bool) k,
  (present = true <-> In k ks) ->
  NoDup ks -> NoDup (if present then ks else ks ++ [k]).
Proof.
  intros ks present k Hp Hnd. destruct present; [exact Hnd|].
  apply NoDup_app; [exact Hnd|repeat constructor; intros []|].
  intros a Ha [<-|[]]. apply Hp in Ha. discriminate.
Qed.

Section SheetFacts.
Context {P : PyLib}.

Lemma header_values_nodup : forall pages items vals hv,
  NoDup (keys vals) -> header_values vals pages items = Ok hv -> NoDup (keys hv).
Proof.
  intros pages items. induction items as [|[field pattern] rest IH]; intros vals hv Hnd H;
    simpl in H.
  - injection H as <-. exact Hnd.
  - destruct (header_value pages pattern) as [v|e]; simpl in H; [|discriminate].
    apply (IH (dict_set vals field v) hv); [|exact H].
    rewrite dict_set_keys. apply keys_step_nodup; [apply dict_mem_in|exact Hnd].
Qed.

Lemma apply_defaults_nodup : forall dflt (vals : dict string),
  NoDup (keys vals) -> NoDup (keys (apply_defaults vals dflt)).
Proof.
  unfold apply_defaults. induction dflt as [|[k v] rest IH]; intros vals Hnd; simpl;
    [exact Hnd|].
  apply IH. rewrite dict_setdefault_keys. apply keys_step_nodup; [apply dict_mem_in|exact Hnd].
Qed.

Lemma upsert_rows_fresh : forall items (rows : dict string),
  NoDup (keys (rows ++ items)) -> upsert_rows rows items = rows ++ items.
Proof.
  induction items as [|[k v] rest IH]; intros rows Hnd; [rewrite app_nil_r; reflexivity|].
  simpl.
  assert (Hk : dict_mem rows k = false).
  { destruct (dict_mem rows k) eqn:E; [|reflexivity]. exfalso.
    apply dict_mem_in in E. unfold keys in Hnd. rewrite map_app in Hnd. simpl in Hnd.
    apply NoDup_remove_2 in Hnd. apply Hnd. apply in_or_app. left. exact E. }
  unfold upsert_row. rewrite Hk.
  rewrite IH; rewrite <- app_assoc; [reflexivity|exact Hnd].
Qed.

End SheetFacts.

(** X10.  The BID_INFO sheet is the header values after the defaults, one
    row per key in the order of the dict, under the default labels
    0, 1, ...; when the header extraction raises, so does the sheet. *)
Theorem bid_info_sheet_is_values : forall (P : PyLib) (main_pdfs : list pdf) (r : rules),
  bid_info_sheet main_pdfs r =
  (vals <- bid_info_values (pages_simple main_pdfs) r ;; Ok (Some (range_frame vals))).
Proof.
  intros P main_pdfs r. unfold bid_info_sheet. fold (pages_simple main_pdfs).
  destruct (bid_info_values (pages_simple main_pdfs) r) as [vals|e] eqn:E; simpl;
    [|reflexivity].
  do 2 f_equal. change (upsert_items [] vals = Some (range_frame vals)).
  rewrite upsert_items_below by reflexivity. f_equal.
  change (field_rows []) with (@nil (string * string)).
  rewrite (upsert_rows_fresh vals []).
  - unfold relabel, range_frame. simpl. rewrite Nat.sub_0_r. reflexivity.
  - simpl. unfold bid_info_values in E.
    destruct (header_values [] (pages_simple main_pdfs) (bid_info_map r)) as [hv|e] eqn:Eh;
      simpl in E; [|discriminate].
    injection E as <-. apply apply_defaults_nodup.
    apply (@header_values_nodup P (pages_simple main_pdfs) (bid_info_map r) [] hv
             (NoDup_nil _) Eh).
Qed.

(** X11.  The defaults never replace a non-empty value that the header
    extraction stored for a key, and a key for which it stored nothing
    takes the value that the defaults give it, if any. *)
Theorem defaults_fill_absent_keys : forall (vals dflt : dict string) (k : string),
  (forall v, dict_get vals k = Some v -> v <> "" ->
             dict_get (apply_defaults vals dflt) k = Some v) /\
  (dict_get vals k = None ->
   dict_get (apply_defaults vals dflt) k = dict_get dflt k).
Proof.
  intros vals dflt k. split.
  - intros v Hv _. apply apply_defaults_present. exact Hv.
  - apply apply_defaults_absent.
Qed.

Lemma apply_defaults_keys : forall dflt (vals : dict string),
  exists extra,
    keys (apply_defaults vals dflt) = keys vals ++ extra /\
    (forall k, In k extra <-> In k (keys dflt) /\ ~ In k (keys vals)).
Proof.
  unfold apply_defaults. induction dflt as [|[k v] rest IH]; intros vals; simpl.
  - exists []. rewrite app_nil_r. split; [reflexivity|]. intros k. simpl. tauto.
  - destruct (IH (dict_setdefault vals k v)) as (extra & Hkeys & Hextra).
    rewrite dict_setdefault_keys in Hkeys, Hextra.
    destruct (dict_mem vals k) eqn:Em.
    + exists extra. split; [exact Hkeys|]. intros k0. rewrite Hextra.
      apply dict_mem_in in Em. split.
      * intros [H1 H2]. auto.
      * intros [[<-|H1] H2]; [contradiction|auto].
    + exists (k :: extra). split; [rewrite Hkeys, <- app_assoc; reflexivity|].
      assert (Hk : ~ In k (keys vals)).
      { intros Hin. apply dict_mem_in in Hin. congruence. }
      intros k0. simpl. rewrite Hextra, in_app_iff. simpl. split.
      * intros [<-|[H1 H2]]; [auto|]. split; [auto|]. intros H3. apply H2. auto.
      * intros [[<-|H1] H2]; [auto|].
        destruct (String.string_dec k k0) as [->|Hne]; [auto|].
        right. split; [exact H1|]. intros [H3|[H3|[]]]; [contradiction|congruence].
Qed.

Section RowOrder.
Context {P : PyLib}.

Lemma header_values_keys : forall pages items vals hv,
  NoDup (keys vals ++ keys items) ->
  header_values vals pages items = Ok hv ->
  keys hv = keys vals ++ keys items.
Proof.
  intros pages items. induction items as [|[field pattern] rest IH]; intros vals hv Hnd H;
    simpl in H.
  - injection H as <-. simpl. rewrite app_nil_r. reflexivity.
  - destruct (header_value pages pattern) as [v|e]; simpl in H; [|discriminate].
    simpl in Hnd.
    assert (Hfresh : dict_mem vals field = false).
    { destruct (dict_mem vals field) eqn:E; [|reflexivity]. exfalso.
      apply dict_mem_in in E. apply NoDup_remove_2 in Hnd. apply Hnd.
      apply in_or_app. left. exact E. }
    assert (Hk : keys (dict_set vals field v) = keys vals ++ [field]).
    { rewrite dict_set_keys, Hfresh. reflexivity. }
    rewrite (IH (dict_set vals field v) hv); [| |exact H]; rewrite Hk, <- app_assoc.
    + reflexivity.
    + exact Hnd.
Qed.

End RowOrder.

(** X12.  With the keys of [bid_info_map] distinct, the header values come
    in this order: the fields of [bid_info_map] in their order, then the
    keys that only the defaults have, each once. *)
Theorem bid_info_row_order : forall (P : PyLib) (pages : list page) (r : rules)
                                    (vals : dict string),
  NoDup (keys (bid_info_map r)) ->
  bid_info_values pages r = Ok vals ->
  exists extra,
    keys vals = keys (bid_info_map r) ++ extra /\
    NoDup extra /\
    (forall k, In k extra <-> In k (keys (defaults r)) /\ ~ In k (keys (bid_info_map r))).
Proof.
  intros P pages r vals Hnd H. unfold bid_info_values in H.
  destruct (header_values [] pages (bid_info_map r)) as [hv|e] eqn:Eh; simpl in H;
    [|discriminate].
  injection H as <-.
  assert (Hk : keys hv = keys (bid_info_map r)).
  { apply (@header_values_keys P pages (bid_info_map r) [] hv); assumption. }
  destruct (apply_defaults_keys (defaults r) hv) as (extra & Hkeys & Hextra).
  exists extra. rewrite Hkeys, Hk. split; [reflexivity|]. split.
  - assert (Hall : NoDup (keys (apply_defaults hv (defaults r)))).
    { apply apply_defaults_nodup. rewrite Hk. exact Hnd. }
    rewrite Hkeys in Hall. apply NoDup_app_remove_l in Hall. exact Hall.
  - intros k. rewrite Hextra, Hk. reflexivity.
Qed.

Lemma bid_info_row_order_witness :
  exists extra,
    keys [("TenderNo", ""); ("Authority", "SECI")] = keys (bid_info_map tender_rules) ++ extra /\
    NoDup extra /\
    (forall k, In k extra <->
               In k (keys (defaults tender_rules)) /\ ~ In k (keys (bid_info_map tender_rules))).
Proof.
  apply (@bid_info_row_order Cpy.lib (read_pdf_text_with_pages tender_pdf) tender_rules).
  - simpl. repeat constructor. simpl. intuition.
  - vm_compute. reflexivity.
Defined.

(** ** More on the upsert *)

Lemma upsert_rows_app : forall items1 items2 rows,
  upsert_rows rows (items1 ++ items2) = upsert_rows (upsert_rows rows items1) items2.
Proof.
  induction items1 as [|[k v] rest IH]; intros items2 rows; [reflexivity|].
  simpl. apply IH.
Qed.

Lemma upsert_rows_keys : forall items rows,
  exists extra,
    keys (upsert_rows rows items) = keys rows ++ extra /\
    NoDup extra /\
    (forall k, In k extra <-> In k (keys items) /\ ~ In k (keys rows)).
Proof.
  induction items as [|[k v] rest IH]; intros rows.
  - exists []. simpl. rewrite app_nil_r. split; [reflexivity|]. split; [constructor|].
    intros k. simpl. tauto.
  - simpl upsert_rows.
    destruct (IH (upsert_row rows k v)) as (extra & Hf & Hnd & Hextra).
    rewrite upsert_row_keys in Hf, Hextra.
    destruct (dict_mem rows k) eqn:Em.
    + exists extra. split; [exact Hf|]. split; [exact Hnd|]. intros k0. rewrite Hextra.
      apply dict_mem_in in Em. simpl. split.
      * intros [H1 H2]. auto.
      * intros [[<-|H1] H2]; [contradiction|auto].
    + assert (Hk : ~ In k (keys rows)).
      { intros Hin. apply dict_mem_in in Hin. congruence. }
      exists (k :: extra). split; [rewrite Hf, <- app_assoc; reflexivity|]. split.
      * constructor; [|exact Hnd]. intros Hin. apply Hextra in Hin.
        destruct Hin as [_ Hin]. apply Hin. apply in_or_app. right. left. reflexivity.
      * intros k0. simpl. rewrite Hextra, in_app_iff. simpl. split.
        -- intros [<-|[H1 H2]]; [auto|]. split; [auto|]. intros H3. apply H2. auto.
        -- intros [[<-|H1] H2]; [auto|].
           destruct (String.string_dec k k0) as [->|Hne]; [auto|].
           right. split; [exact H1|]. intros [H3|[H3|[]]]; [contradiction|congruence].
Qed.

(** X14.  On a table whose row labels are all below its number of rows,
    an upsert never removes or reorders rows: the labels and the fields
    of the table stay where they are, and behind them come the fields of
    the mapping that the table did not have, each once, under the labels
    that follow. *)
Theorem upsert_only_appends : forall (df : frame) (mapping : dict string),
  labels_below df = true ->
  exists df' extra,
    upsert_bid_info df mapping = Some df' /\
    row_labels df'
    = row_labels df ++ map Z.of_nat (seq (List.length df) (List.length extra)) /\
    keys (field_rows df') = keys (field_rows df) ++ extra /\
    NoDup extra /\
    (forall k, In k extra <-> In k (keys mapping) /\ ~ In k (keys (field_rows df))) /\
    List.length df' = List.length df + List.length extra.
Proof.
  intros df mapping Hb.
  destruct (upsert_below_facts df mapping Hb) as (df' & E & Hrows & _ & Hlabels & _).
  destruct (upsert_rows_keys mapping (field_rows df)) as (extra & Hf & Hnd & Hextra).
  rewrite <- Hrows in Hf.
  assert (Hlen : List.length df' = List.length df + List.length extra).
  { rewrite <- (length_map snd df'). fold (field_rows df').
    rewrite <- (length_map fst (field_rows df')). fold (keys (field_rows df')).
    rewrite Hf, length_app. unfold keys, field_rows. rewrite !length_map. reflexivity. }
  exists df', extra. split; [exact E|]. split.
  - rewrite Hlabels. do 3 f_equal. lia.
  - repeat split; try assumption; apply Hextra; assumption.
Qed.

Lemma upsert_only_appends_witness :
  exists df' extra,
    upsert_bid_info [(0, ("TenderNo", "RfS-12")); (1, ("Authority", "SECI"))]%Z
                    [("Capacity", "300 MW"); ("Authority", "NTPC"); ("EMD", "2 Cr")]
    = Some df' /\
    row_labels df' = [0; 1]%Z ++ map Z.of_nat (seq 2 (List.length extra)) /\
    keys (field_rows df') = ["TenderNo"; "Authority"] ++ extra.
Proof.
  destruct (@upsert_only_appends
              [(0, ("TenderNo", "RfS-12")); (1, ("Authority", "SECI"))]%Z
              [("Capacity", "300 MW"); ("Authority", "NTPC"); ("EMD", "2 Cr")] eq_refl)
    as (df' & extra & E & Hlabels & Hkeys & _).
  exists df', extra. repeat split; assumption.
Defined.

Lemma dict_get_none : forall (d : dict string) k,
  dict_get d k = None <-> ~ In k (keys d).
Proof.
  intros d k. rewrite <- dict_mem_in. split.
  - intros H Hm. apply dict_get_mem in Hm. destruct Hm as [v Hv]. congruence.
  - intros H. destruct (dict_get d k) as [v|] eqn:E; [|reflexivity].
    exfalso. apply H. apply dict_get_mem. eauto.
Qed.

Lemma keys_rev : forall (d : dict string) k, In k (keys (rev d)) <-> In k (keys d).
Proof.
  intros d k. unfold keys. rewrite map_rev. symmetry. apply in_rev.
Qed.

Lemma upsert_row_field_value : forall rows k v row,
  In row (upsert_row rows k v) -> fst row = k -> snd row = v.
Proof.
  intros rows k v row Hin Hk. unfold upsert_row in Hin.
  destruct (dict_mem rows k) eqn:Eany.
  - unfold set_values in Hin. apply in_map_iff in Hin. destruct Hin as (r & Hr & _).
    destruct (String.eqb (fst r) k) eqn:E.
    + subst row. reflexivity.
    + subst r. apply String.eqb_neq in E. contradiction.
  - apply in_app_or in Hin. destruct Hin as [Hin|[<-|[]]].
    + exfalso. subst k.
      assert (Hany : dict_mem rows (fst row) = true).
      { apply dict_mem_in. apply in_map. exact Hin. }
      congruence.
    + reflexivity.
Qed.

Lemma upsert_row_other_rows : forall rows k v row,
  In row (upsert_row rows k v) -> fst row <> k -> In row rows.
Proof.
  intros rows k v row Hin Hk. unfold upsert_row in Hin. destruct (dict_mem rows k).
  - unfold set_values in Hin. apply in_map_iff in Hin. destruct Hin as (r & Hr & Hrin).
    destruct (String.eqb (fst r) k) eqn:E.
    + subst row. simpl in Hk. apply String.eqb_eq in E. contradiction.
    + subst r. exact Hrin.
  - apply in_app_or in Hin. destruct Hin as [Hin|[<-|[]]].
    + exact Hin.
    + simpl in Hk. contradiction.
Qed.

(** A row whose field the mapping does not name is a row of the table. *)
Lemma upsert_rows_other_rows : forall items rows row,
  In row (upsert_rows rows items) -> ~ In (fst row) (keys items) -> In row rows.
Proof.
  induction items as [|[k v] rest IH]; intros rows row Hin Hk; [exact Hin|].
  simpl in Hin, Hk.
  apply (@upsert_row_other_rows rows k v).
  - apply IH; [exact Hin|]. intros H. apply Hk. right. exact H.
  - intros H. apply Hk. left. symmetry. exact H.
Qed.

(** Every row of a field that the mapping names holds the value of the
    last entry of that field. *)
Lemma upsert_rows_row_value : forall items rows row v,
  In row (upsert_rows rows items) ->
  dict_get (rev items) (fst row) = Some v ->
  snd row = v.
Proof.
  induction items as [|[k v0] rest IH]; intros rows row v Hin Hget; [discriminate|].
  simpl upsert_rows in Hin. simpl rev in Hget. rewrite dict_get_app in Hget.
  destruct (dict_get (rev rest) (fst row)) as [v'|] eqn:E.
  - injection Hget as <-. apply (IH (upsert_row rows k v0) row v' Hin E).
  - simpl in Hget. destruct (String.eqb k (fst row)) eqn:Ek; [|discriminate].
    injection Hget as <-. apply String.eqb_eq in Ek.
    apply (@upsert_row_field_value rows k v0); [|symmetry; exact Ek].
    apply (@upsert_rows_other_rows rest); [exact Hin|].
    apply dict_get_none in E. intros H. apply E. apply keys_rev. exact H.
Qed.

(** When the table has every field of the mapping, the upsert rewrites
    values only. *)
Lemma upsert_rows_present : forall items rows,
  (forall k, In k (keys items) -> dict_mem rows k = true) ->
  upsert_rows rows items =
  map (fun row => match dict_get (rev items) (fst row) with
                  | Some v => (fst row, v)
                  | None => row
                  end) rows.
Proof.
  induction items as [|[k v] rest IH]; intros rows Hall.
  - simpl. symmetry. apply map_id.
  - simpl upsert_rows. unfold upsert_row.
    rewrite (Hall k (or_introl eq_refl)).
    rewrite IH.
    + unfold set_values. rewrite map_map. apply map_ext. intros row.
      simpl rev. rewrite dict_get_app.
      destruct (String.eqb (fst row) k) eqn:E; simpl.
      * destruct (dict_get (rev rest) (fst row)); [reflexivity|].
        rewrite String.eqb_sym, E. reflexivity.
      * destruct (dict_get (rev rest) (fst row)); [reflexivity|].
        rewrite String.eqb_sym, E. reflexivity.
    + intros k0 Hk0. apply dict_mem_in. rewrite set_values_keys.
      apply dict_mem_in. apply Hall. right. exact Hk0.
Qed.

Lemma upsert_rows_idempotent : forall items rows,
  upsert_rows (upsert_rows rows items) items = upsert_rows rows items.
Proof.
  intros items rows. rewrite upsert_rows_present.
  - rewrite <- (map_id (upsert_rows rows items)) at 2.
    apply map_ext_in. intros row Hin.
    destruct (dict_get (rev items) (fst row)) as [v|] eqn:E; [|reflexivity].
    rewrite <- (@upsert_rows_row_value items rows row v Hin E).
    destruct row; reflexivity.
  - intros k Hk. apply dict_get_mem.
    rewrite upsert_rows_get.
    destruct (dict_get (rev items) k) as [v|] eqn:E; [eauto|].
    exfalso. apply dict_get_none in E. apply E. apply keys_rev. exact Hk.
Qed.

(** X15.  On a table whose row labels are all below its number of rows,
    the upsert leaves every field of the mapping with the value of its
    last entry, and upserting the same mapping a second time changes
    nothing. *)
Theorem upsert_idempotent : forall (df : frame) (mapping : dict string),
  labels_below df = true ->
  exists df',
    upsert_bid_info df mapping = Some df' /\
    (forall k v, dict_get (rev mapping) k = Some v ->
                 dict_get (field_rows df') k = Some v) /\
    upsert_bid_info df' mapping = Some df'.
Proof.
  intros df mapping Hb.
  destruct (upsert_below_facts df mapping Hb) as (df' & E & Hrows & Hb' & _).
  exists df'. split; [exact E|]. split.
  - intros k v Hlast. rewrite Hrows, upsert_rows_get, Hlast. reflexivity.
  - rewrite upsert_bid_info_items, (upsert_items_below mapping df' Hb').
    rewrite Hrows, upsert_rows_idempotent, <- Hrows, relabel_same. reflexivity.
Qed.

Lemma upsert_idempotent_witness :
  exists df',
    upsert_bid_info [(0, ("TenderNo", "RfS-12")); (1, ("Authority", "SECI"))]%Z
                    [("Capacity", "300 MW"); ("Authority", "NTPC")]
    = Some df' /\
    dict_get (field_rows df') "Authority" = Some "NTPC" /\
    upsert_bid_info df' [("Capacity", "300 MW"); ("Authority", "NTPC")] = Some df'.
Proof.
  destruct (@upsert_idempotent [(0, ("TenderNo", "RfS-12")); (1, ("Authority", "SECI"))]%Z
                               [("Capacity", "300 MW"); ("Authority", "NTPC")] eq_refl)
    as (df' & E & Hvalues & Hagain).
  exists df'. split; [exact E|]. split; [|exact Hagain].
  apply Hvalues. reflexivity.
Defined.

(** *** Two upserts in a row *)

Lemma set_values_absent : forall rows k v,
  dict_mem rows k = false -> set_values rows k v = rows.
Proof.
  intros rows k v H. unfold set_values. rewrite <- (map_id rows) at 2.
  apply map_ext_in. intros row Hin.
  destruct (String.eqb (fst row) k) eqn:E; [|reflexivity]. exfalso.
  apply String.eqb_eq in E.
  assert (Hm : dict_mem rows k = true).
  { apply dict_mem_in. rewrite <- E. apply in_map. exact Hin. }
  congruence.
Qed.

Lemma set_values_twice : forall rows k v0 v,
  set_values (set_values rows k v0) k v = set_values rows k v.
Proof.
  intros rows k v0 v. unfold set_values. rewrite map_map. apply map_ext. intros row.
  destruct (String.eqb (fst row) k) eqn:E; simpl; rewrite E; reflexivity.
Qed.

Lemma set_values_comm : forall rows k v k1 v1,
  k1 <> k ->
  set_values (set_values rows k v) k1 v1 = set_values (set_values rows k1 v1) k v.
Proof.
  intros rows k v k1 v1 Hne. unfold set_values. rewrite !map_map. apply map_ext. intros row.
  destruct (String.eqb (fst row) k) eqn:E; destruct (String.eqb (fst row) k1) eqn:E1;
    simpl; rewrite ?E, ?E1; try reflexivity.
  apply String.eqb_eq in E, E1. congruence.
Qed.

Lemma dict_mem_set_values : forall rows k v k1,
  dict_mem (set_values rows k v) k1 = dict_mem rows k1.
Proof.
  intros rows k v k1.
  destruct (dict_mem rows k1) eqn:E.
  - apply dict_mem_in. rewrite set_values_keys. apply dict_mem_in. exact E.
  - destruct (dict_mem (set_values rows k v) k1) eqn:E'; [|reflexivity].
    apply dict_mem_in in E'. rewrite set_values_keys in E'. apply dict_mem_in in E'.
    congruence.
Qed.

Lemma set_values_upsert_row : forall rows k v0 v,
  set_values (upsert_row rows k v0) k v = upsert_row rows k v.
Proof.
  intros rows k v0 v. unfold upsert_row. destruct (dict_mem rows k) eqn:E.
  - apply set_values_twice.
  - unfold set_values at 1. rewrite map_app. fold (set_values rows k v).
    rewrite (set_values_absent rows k v E). simpl. rewrite String.eqb_refl. reflexivity.
Qed.

Lemma upsert_row_set_values : forall rows k v k1 v1,
  k1 <> k ->
  upsert_row (set_values rows k v) k1 v1 = set_values (upsert_row rows k1 v1) k v.
Proof.
  intros rows k v k1 v1 Hne. unfold upsert_row. rewrite dict_mem_set_values.
  destruct (dict_mem rows k1).
  - apply set_values_comm. exact Hne.
  - unfold set_values at 2. rewrite map_app. fold (set_values rows k v). simpl.
    apply String.eqb_neq in Hne. rewrite Hne. reflexivity.
Qed.

(** Setting the value of a field commutes with the upsert of other
    fields. *)
Lemma upsert_rows_set_values : forall items rows k v,
  ~ In k (keys items) ->
  upsert_rows (set_values rows k v) items = set_values (upsert_rows rows items) k v.
Proof.
  induction items as [|[k1 v1] rest IH]; intros rows k v Hk; [reflexivity|].
  simpl in Hk. simpl upsert_rows.
  rewrite upsert_row_set_values by (intros ->; apply Hk; left; reflexivity).
  apply IH. intros H. apply Hk. right. exact H.
Qed.

Lemma dict_mem_upsert_rows : forall items rows k,
  dict_mem rows k = true -> dict_mem (upsert_rows rows items) k = true.
Proof.
  intros items rows k H. apply dict_mem_in.
  destruct (upsert_rows_keys items rows) as (extra & -> & _).
  apply in_or_app. left. apply dict_mem_in. exact H.
Qed.

Lemma dict_mem_upsert_row : forall rows k v, dict_mem (upsert_row rows k v) k = true.
Proof.
  intros rows k v. apply dict_get_mem. exists v.
  rewrite upsert_row_get, String.eqb_refl. reflexivity.
Qed.

(** Storing an entry in the mapping before the upsert is upserting the
    entry behind the mapping. *)
Lemma upsert_rows_dict_set : forall items rows k v,
  NoDup (keys items) ->
  upsert_rows rows (dict_set items k v) = upsert_rows rows (items ++ [(k, v)]).
Proof.
  induction items as [|[k0 v0] rest IH]; intros rows k v Hnd; [reflexivity|].
  simpl in Hnd. inversion Hnd as [|x l Hnotin Hnd']; subst. simpl dict_set.
  destruct (String.eqb k0 k) eqn:E.
  - apply String.eqb_eq in E. subst k0. simpl app. simpl upsert_rows.
    rewrite upsert_rows_app. simpl upsert_rows.
    unfold upsert_row at 2.
    rewrite (dict_mem_upsert_rows rest _ k (dict_mem_upsert_row rows k v0)).
    rewrite <- upsert_rows_set_values by exact Hnotin.
    rewrite set_values_upsert_row. reflexivity.
  - simpl app. simpl upsert_rows. apply IH. exact Hnd'.
Qed.

Lemma dict_set_nodup : forall (d : dict string) k v,
  NoDup (keys d) -> NoDup (keys (dict_set d k v)).
Proof.
  intros d k v H. rewrite dict_set_keys. apply keys_step_nodup; [apply dict_mem_in|exact H].
Qed.

Lemma upsert_rows_update : forall items2 items1 rows,
  NoDup (keys items1) ->
  upsert_rows (upsert_rows rows items1) items2 = upsert_rows rows (dict_update items1 items2).
Proof.
  unfold dict_update.
  induction items2 as [|[k v] rest IH]; intros items1 rows Hnd; [reflexivity|].
  simpl fold_left. rewrite <- (IH (dict_set items1 k v) rows (@dict_set_nodup items1 k v Hnd)).
  rewrite upsert_rows_dict_set by exact Hnd. rewrite upsert_rows_app. reflexivity.
Qed.

(** X13.  On a table whose row labels are all below its number of rows,
    upserting one dict and then a second gives the table that a single
    upsert of the first dict updated by the second gives: the fields of
    the second dict hold its values, and the rows that the second upsert
    finds are updated where the first one put them. *)
Theorem upsert_twice_is_update : forall (df : frame) (mapping1 mapping2 : dict string),
  labels_below df = true ->
  NoDup (keys mapping1) ->
  exists df1 df2,
    upsert_bid_info df mapping1 = Some df1 /\
    upsert_bid_info df1 mapping2 = Some df2 /\
    (forall k v, dict_get (rev mapping2) k = Some v ->
                 dict_get (field_rows df2) k = Some v) /\
    upsert_bid_info df (dict_update mapping1 mapping2) = Some df2.
Proof.
  intros df mapping1 mapping2 Hb Hnd.
  pose proof (upsert_below_length df mapping1) as Hlen1.
  set (rows1 := upsert_rows (field_rows df) mapping1) in *.
  pose proof (upsert_rows_length mapping2 rows1) as Hlen2.
  assert (Hb1 : labels_below (relabel df rows1) = true) by (apply relabel_below; assumption).
  exists (relabel df rows1), (relabel df (upsert_rows rows1 mapping2)).
  rewrite !upsert_bid_info_items.
  rewrite (upsert_items_below mapping1 df Hb).
  rewrite (upsert_items_below mapping2 _ Hb1).
  rewrite (upsert_items_below (dict_update mapping1 mapping2) df Hb).
  rewrite (relabel_rows _ _ Hlen1).
  rewrite (relabel_twice df rows1 (upsert_rows rows1 mapping2) Hlen1 Hlen2).
  split; [reflexivity|]. split; [reflexivity|]. split.
  - intros k v Hlast. rewrite relabel_rows by (eapply Nat.le_trans; eassumption).
    rewrite upsert_rows_get, Hlast. reflexivity.
  - unfold rows1. rewrite (upsert_rows_update mapping2 mapping1 (field_rows df) Hnd).
    reflexivity.
Qed.

Lemma upsert_twice_is_update_witness :
  exists df1 df2,
    upsert_bid_info [(0, ("TenderNo", "RfS-12")); (1, ("Authority", "SECI"))]%Z
                    [("Capacity", "250 MW"); ("EMD", "2 Cr")] = Some df1 /\
    upsert_bid_info df1 [("Authority", "NTPC"); ("Capacity", "300 MW"); ("Mode", "e-bid")]
    = Some df2 /\
    dict_get (field_rows df2) "Capacity" = Some "300 MW" /\
    upsert_bid_info [(0, ("TenderNo", "RfS-12")); (1, ("Authority", "SECI"))]%Z
                    [("Capacity", "300 MW"); ("EMD", "2 Cr"); ("Authority", "NTPC");
                     ("Mode", "e-bid")]
    = Some df2.
Proof.
  assert (Hnd : NoDup (keys [("Capacity", "250 MW"); ("EMD", "2 Cr")])).
  { simpl. repeat constructor; simpl; intuition discriminate. }
  destruct (@upsert_twice_is_update
              [(0, ("TenderNo", "RfS-12")); (1, ("Authority", "SECI"))]%Z
              [("Capacity", "250 MW"); ("EMD", "2 Cr")]
              [("Authority", "NTPC"); ("Capacity", "300 MW"); ("Mode", "e-bid")]
              eq_refl Hnd)
    as (df1 & df2 & E1 & E2 & Hvalues & Emerged).
  exists df1, df2. split; [exact E1|]. split; [exact E2|]. split; [|exact Emerged].
  apply Hvalues. reflexivity.
Defined.

(** The tables of that witness: the first upsert appends Capacity and EMD
    under the labels 2 and 3, the second updates Authority and Capacity in
    their rows and appends Mode. *)
Example upsert_twice_tender :
  upsert_bid_info [(0, ("TenderNo", "RfS-12")); (1, ("Authority", "SECI"))]%Z
                  [("Capacity", "250 MW"); ("EMD", "2 Cr")]
  = Some [(0, ("TenderNo", "RfS-12")); (1, ("Authority", "SECI"));
          (2, ("Capacity", "250 MW")); (3, ("EMD", "2 Cr"))]%Z /\
  upsert_bid_info [(0, ("TenderNo", "RfS-12")); (1, ("Authority", "SECI"));
                   (2, ("Capacity", "250 MW")); (3, ("EMD", "2 Cr"))]%Z
                  [("Authority", "NTPC"); ("Capacity", "300 MW"); ("Mode", "e-bid")]
  = Some [(0, ("TenderNo", "RfS-12")); (1, ("Authority", "NTPC"));
          (2, ("Capacity", "300 MW")); (3, ("EMD", "2 Cr")); (4, ("Mode", "e-bid"))]%Z /\
  dict_update [("Capacity", "250 MW"); ("EMD", "2 Cr")]
              [("Authority", "NTPC"); ("Capacity", "300 MW"); ("Mode", "e-bid")]
  = [("Capacity", "300 MW"); ("EMD", "2 Cr"); ("Authority", "NTPC"); ("Mode", "e-bid")].
Proof. repeat split; reflexivity. Qed.

(** ** The amendment tracker *)

Section TrackerFacts.
Context {P : PyLib}.

Lemma amendment_row_file : forall f row,
  amendment_row f = Ok row ->
  FileName row = pdf_name f /\ Pages row = List.length (pdf_pages f).
Proof.
  intros f row H. unfold amendment_row in H.
  destruct (find_first date_pattern (read_pdf_text_with_pages f) IGNORECASE) as [r|e];
    simpl in H; [|discriminate].
  match type of H with
  | bind ?d _ = _ => destruct d as [date_found|e]; simpl in H; [|discriminate]
  end.
  destruct (find_first label_pattern (read_pdf_text_with_pages f) IGNORECASE) as [r2|e];
    simpl in H; [|discriminate].
  match type of H with
  | bind ?l _ = _ => destruct l as [label|e]; simpl in H; [|discriminate]
  end.
  injection H as <-. simpl. split; [reflexivity|apply read_pdf_length].
Qed.

Lemma append_amendments_from_spec : forall files rows out,
  append_amendments_from rows files = Ok out ->
  exists new, out = rows ++ new /\
              Forall2 (fun f row => amendment_row f = Ok row) files new.
Proof.
  induction files as [|f rest IH]; intros rows out H; simpl in H.
  - injection H as <-. exists []. rewrite app_nil_r. split; [reflexivity|constructor].
  - destruct (amendment_row f) as [row|e] eqn:E; simpl in H; [|discriminate].
    destruct (IH _ _ H) as (new & -> & Hnew).
    exists (row :: new). rewrite <- app_assoc. split; [reflexivity|].
    constructor; assumption.
Qed.

End TrackerFacts.

(** X16.  When [append_amendments] returns, the tracker has one row per
    amendment file, in the order of the files, each carrying the base
    name and the page count of its own file. *)
Theorem amendments_one_row_per_file : forall (P : PyLib) (files : list pdf)
                                             (rows : list AmendmentRecord),
  append_amendments files = Ok rows ->
  Forall2 (fun f row =>
             amendment_row f = Ok row /\
             FileName row = pdf_name f /\
             Pages row = List.length (pdf_pages f)) files rows /\
  map FileName rows = map pdf_name files.
Proof.
  intros P files rows H. unfold append_amendments in H.
  apply append_amendments_from_spec in H. destruct H as (new & -> & Hnew). simpl.
  assert (Hall : Forall2 (fun f row =>
                            amendment_row f = Ok row /\
                            FileName row = pdf_name f /\
                            Pages row = List.length (pdf_pages f)) files new).
  { induction Hnew as [|f row files new Hrow _ IH]; constructor; [|exact IH].
    split; [exact Hrow|]. apply amendment_row_file. exact Hrow. }
  split; [exact Hall|].
  clear Hnew. induction Hall as [|f row files new (_ & Hname & _) _ IH]; simpl;
    [reflexivity|].
  rewrite Hname, IH. reflexivity.
Qed.

Lemma amendments_one_row_per_file_witness :
  map FileName
      [mkAmendment "Addendum" "addendum2.pdf" (Some "12/05/2024") "" 2;
       mkAmendment "Corrigendum/Addendum" "notice.pdf" (Some "12/05/2024") "" 1]
  = map pdf_name [addendum_pdf; notice_pdf].
Proof.
  apply (proj2 (@amendments_one_row_per_file Cpy.lib [addendum_pdf; notice_pdf] _
                  ltac:(vm_compute; reflexivity))).
Defined.

(** ** to_int *)

Lemma list_ascii_of_string_app : forall s1 s2,
  list_ascii_of_string (s1 ++ s2)%string
  = list_ascii_of_string s1 ++ list_ascii_of_string s2.
Proof.
  induction s1 as [|c s1 IH]; intros s2; simpl; [reflexivity|]. rewrite IH. reflexivity.
Qed.

(** X17.  [to_int] reads the digits of the text and nothing else: a
    character that is not a digit (a sign, a separator, a letter) may be
    removed anywhere without changing the result, so a minus sign never
    makes the number negative. *)
Theorem to_int_ignores_other_characters : forall (max_str_digits : nat) (s1 s2 : string)
                                                 (c : ascii),
  is_digit c = false ->
  to_int max_str_digits (s1 ++ String c s2) = to_int max_str_digits (s1 ++ s2).
Proof.
  intros limit s1 s2 c Hc. unfold to_int.
  rewrite !list_ascii_of_string_app, !filter_app. simpl. rewrite Hc. reflexivity.
Qed.

Lemma to_int_ignores_other_characters_witness :
  to_int 4300 ("" ++ String "-" "1,250") = to_int 4300 ("" ++ "1,250") /\
  to_int 4300 "-1,250" = Some 1250%N.
Proof.
  split; [|reflexivity].
  apply to_int_ignores_other_characters. reflexivity.
Defined.

(** X18.  Within the interpreter's limit on the length of the text,
    [to_int] gives [None] exactly for the texts without any digit. *)
Theorem to_int_none_without_digits : forall (max_str_digits : nat) (s : string),
  max_str_digits = 0 \/ String.length s <= max_str_digits ->
  (to_int max_str_digits s = None <->
   forall c, In c (list_ascii_of_string s) -> is_digit c = false).
Proof.
  intros limit s Hlimit. unfold to_int, int_of_digits.
  assert (Hlen : List.length (filter is_digit (list_ascii_of_string s)) <= String.length s).
  { assert (Hl : forall t, String.length t = List.length (list_ascii_of_string t)).
    { induction t as [|x t IH]; simpl; [reflexivity|]. rewrite IH. reflexivity. }
    rewrite Hl. apply filter_length_le. }
  destruct (filter is_digit (list_ascii_of_string s)) as [|d ds] eqn:E.
  - split; [|reflexivity]. intros _ c Hin.
    destruct (is_digit c) eqn:Ec; [|reflexivity].
    assert (Hf : In c (filter is_digit (list_ascii_of_string s))).
    { apply filter_In. auto. }
    rewrite E in Hf. destruct Hf.
  - assert (Hok : (0 <? limit) && (limit <? List.length (d :: ds)) = false).
    { destruct Hlimit as [->|Hle]; [reflexivity|].
      apply andb_false_iff. right. apply Nat.ltb_ge. lia. }
    rewrite Hok. split; [discriminate|]. intros Hnone. exfalso.
    assert (Hd : In d (filter is_digit (list_ascii_of_string s))).
    { rewrite E. left. reflexivity. }
    apply filter_In in Hd. destruct Hd as [Hin Hdig]. rewrite (Hnone d Hin) in Hdig.
    discriminate.
Qed.

Lemma to_int_none_without_digits_witness :
  to_int 4300 "to be announced" = None <->
  forall c, In c (list_ascii_of_string "to be announced") -> is_digit c = false.
Proof.
  apply to_int_none_without_digits. right. simpl. lia.
Defined.

Lemma decimal_text : forall (d : Decimal.uint) (acc : nat),
  fold_left (fun a c => (10 * a + (N_of_ascii c - 48))%N)
            (list_ascii_of_string (NilEmpty.string_of_uint d)) (N.of_nat acc)
  = N.of_nat (Nat.of_uint_acc d acc) /\
  forallb is_digit (list_ascii_of_string (NilEmpty.string_of_uint d)) = true.
Proof.
  induction d as [|d IH|d IH|d IH|d IH|d IH|d IH|d IH|d IH|d IH|d IH]; intros acc;
    [split; reflexivity|..];
    cbn [NilEmpty.string_of_uint list_ascii_of_string fold_left forallb Nat.of_uint_acc];
    (split; [|apply (IH 0)]);
    rewrite <- (proj1 (IH _)); f_equal; rewrite Nat.tail_mul_spec;
    match goal with
    | |- context [N_of_ascii ?c] =>
        let v := eval vm_compute in (N_of_ascii c) in change (N_of_ascii c) with v
    end; lia.
Qed.

Lemma filter_all : forall (A : Type) (f : A -> bool) (l : list A),
  forallb f l = true -> filter f l = l.
Proof.
  induction l as [|a t IH]; simpl; intros H; [reflexivity|].
  apply andb_true_iff in H. destruct H as [Ha Ht]. rewrite Ha, (IH Ht). reflexivity.
Qed.

Lemma str_of_nat_digits : forall n,
  let l := list_ascii_of_string (str_of_nat n) in
  forallb is_digit l = true /\ l <> [] /\ digits_value l = N.of_nat n.
Proof.
  intros n. unfold str_of_nat.
  pose proof (DecimalNat.Unsigned.of_to n) as Hn. unfold Nat.of_uint in Hn.
  destruct (Nat.to_uint n) as [|d|d|d|d|d|d|d|d|d|d] eqn:E;
    [simpl in Hn; subst n; repeat split; discriminate|..];
    cbv zeta; rewrite <- Hn;
    match goal with
    | |- context [NilZero.string_of_uint ?u] =>
        change (NilZero.string_of_uint u) with (NilEmpty.string_of_uint u);
        destruct (decimal_text u 0) as [Hv Hd]
    end;
    (split; [exact Hd|]); (split; [discriminate|]); exact Hv.
Qed.

(** X19.  [to_int] undoes [str] on the natural numbers: the decimal text
    of [n], when it is within the interpreter's limit on the length of
    the text, converts back to [n]. *)
Theorem to_int_of_str : forall (max_str_digits n : nat),
  max_str_digits = 0 \/ String.length (str_of_nat n) <= max_str_digits ->
  to_int max_str_digits (str_of_nat n) = Some (N.of_nat n).
Proof.
  intros limit n Hlimit. unfold to_int, int_of_digits.
  destruct (str_of_nat_digits n) as (Hd & Hne & Hv).
  rewrite (filter_all _ _ Hd).
  assert (Hl : String.length (str_of_nat n)
               = List.length (list_ascii_of_string (str_of_nat n))).
  { generalize (str_of_nat n). induction s as [|x t IH]; simpl; [reflexivity|].
    rewrite IH. reflexivity. }
  destruct (list_ascii_of_string (str_of_nat n)) as [|d ds] eqn:E; [congruence|].
  assert (Hok : (0 <? limit) && (limit <? List.length (d :: ds)) = false).
  { destruct Hlimit as [->|Hle]; [reflexivity|].
    apply andb_false_iff. right. apply Nat.ltb_ge. lia. }
  rewrite Hok, Hv. reflexivity.
Qed.

Lemma to_int_of_str_witness :
  to_int 4300 (str_of_nat 250) = Some (N.of_nat 250).
Proof.
  apply to_int_of_str. right. vm_compute. lia.
Defined.
